(** * Analytical engine of data-analysis-ui: a shallow embedding

    The four analysis components (correlation, ranking, forecasting and
    weight sensitivity) are React function components.  Their handlers are
    embedded here as functions over the component state they read and the
    state updates they schedule.

    Conventions.
    - A JavaScript number is a real number ([R]): arithmetic is exact, there
      is no rounding, no overflow and no signed zero.  Where the source can
      read [undefined] or produce [NaN] the value is an [option R], with
      [None] standing for both.  The text [Infinity] is outside the model.
    - A JavaScript object used as a dictionary is a [gmap string _].
    - [useState] setters do not change what the running handler reads: a
      handler is a function of the state of the current render and returns
      the state of the next one. *)

From Stdlib Require Import Reals Lra Lia ZArith Sorted Permutation.
From stdpp Require Import gmap strings list fin_maps.

#[local] Open Scope R_scope.

(** ** Numbers *)

Module JS.

(** [arr.reduce((s, v) => s + v, 0)] *)
Definition sum (l : list R) : R := fold_left Rplus l 0.

(** [a === b], [a < b], [a <= b], [a > b] on numbers. *)
Definition eqb (a b : R) : bool := if Req_dec_T a b then true else false.
Definition ltb (a b : R) : bool := if Rlt_dec a b then true else false.
Definition leb (a b : R) : bool := if Rle_dec a b then true else false.
Definition gtb (a b : R) : bool := ltb b a.
Definition geb (a b : R) : bool := leb b a.

(** [Math.max(...l)] and [Math.min(...l)] for a non-empty [l]; on the
    empty array JavaScript answers an infinity, here [None]. *)
Definition Math_max (l : list R) : option R :=
  match l with
  | [] => None
  | x :: xs => Some (fold_left Rmax xs x)
  end.

Definition Math_min (l : list R) : option R :=
  match l with
  | [] => None
  | x :: xs => Some (fold_left Rmin xs x)
  end.

(** [x || d] on a number that may be [NaN] or [undefined], both [None]:
    they are falsy, and so is [0]. *)
Definition or_else (x : option R) (d : R) : R :=
  match x with
  | Some v => if eqb v 0 then d else v
  | None => d
  end.

(** [Array.prototype.sort(cmp)], a stable sort; [positive a b] says that
    [cmp(a, b) > 0], that is, [b] has to come before [a].  A comparator
    answering [NaN] counts as 0.  With a comparator that is not a
    consistent order the engine may place the elements otherwise. *)
Section sort.
Context {A : Type} (positive : A -> A -> bool).

Fixpoint place (x : A) (l : list A) : list A :=
  match l with
  | [] => [x]
  | y :: l' => if positive x y then y :: place x l' else x :: y :: l'
  end.

Definition sort (l : list A) : list A := foldr place [] l.
End sort.

(** [arr.indexOf(x)], [None] for -1. *)
Fixpoint indexOf (l : list string) (x : string) : option nat :=
  match l with
  | [] => None
  | y :: l' => if decide (y = x) then Some 0%nat else S <$> indexOf l' x
  end.

(** What a handler ends with: the message given to [setError], or its
    product. *)
Inductive outcome (A : Type) : Type :=
| Failed (message : string)
| Done (a : A).
Arguments Failed {A} message.
Arguments Done {A} a.

(** A template literal with one hole. *)
Definition quoted (pre name post : string) : string :=
  (pre +:+ name +:+ post)%string.

End JS.

(** ** The dataset *)

Module Sheet.

(** A cell of [ExcelData.data : (string | number)[][]]; [CEmpty] is a
    hole, [undefined] or [null]. *)
Inductive cell : Type :=
| CNum (r : R)
| CStr (s : string)
| CEmpty.

Record ExcelData : Type := {
  headers : list string;
  data : list (list cell);
  sheetNames : list string;
  activeSheet : string
}.

(** [row[i]] *)
Definition at_col (row : list cell) (i : nat) : cell :=
  default CEmpty (row !! i).

(** Truthiness of [row[i]]: a hole, the empty text and the number 0 are
    falsy. *)
Definition truthy (c : cell) : bool :=
  match c with
  | CNum r => negb (JS.eqb r 0)
  | CStr s => negb (bool_decide (s = EmptyString))
  | CEmpty => false
  end.

(** *** [parseFloat] on text

    The longest prefix, after leading white space, that is a decimal
    literal: sign, digits, fraction, exponent.  The result is kept as a
    signed mantissa and a power of ten. *)

Definition is_digit (c : Ascii.ascii) : bool :=
  let n := Ascii.nat_of_ascii c in (48 <=? n)%nat && (n <=? 57)%nat.

Definition digit_val (c : Ascii.ascii) : Z :=
  Z.of_nat (Ascii.nat_of_ascii c) - 48.

Definition is_space (c : Ascii.ascii) : bool :=
  let n := Ascii.nat_of_ascii c in
  ((9 <=? n)%nat && (n <=? 13)%nat) || (n =? 32)%nat.

Fixpoint skip_space (s : string) : string :=
  match s with
  | String c s' => if is_space c then skip_space s' else s
  | EmptyString => s
  end.

(** Reads digits: the value accumulated, how many were read, the rest. *)
Fixpoint read_digits (s : string) (acc : Z) (n : nat) : Z * nat * string :=
  match s with
  | String c s' =>
      if is_digit c then read_digits s' (10 * acc + digit_val c)%Z (S n)
      else (acc, n, s)
  | EmptyString => (acc, n, s)
  end.

Definition is_char (n : nat) (c : Ascii.ascii) : bool :=
  (Ascii.nat_of_ascii c =? n)%nat.

(** An optional sign: -1 after ['-'], 1 otherwise. *)
Definition read_sign (s : string) : Z * string :=
  match s with
  | String c s' =>
      if is_char 45 c then ((-1)%Z, s')
      else if is_char 43 c then (1%Z, s')
      else (1%Z, s)
  | EmptyString => (1%Z, s)
  end.

(** An exponent part [e], sign, digits; 0 when there is none. *)
Definition read_exponent (s : string) : Z :=
  match s with
  | String c s' =>
      if is_char 101 c || is_char 69 c then
        let '(sg, s'') := read_sign s' in
        let '(e, n, _) := read_digits s'' 0%Z 0%nat in
        if (n =? 0)%nat then 0%Z else (sg * e)%Z
      else 0%Z
  | EmptyString => 0%Z
  end.

Definition parseDecimal (s : string) : option (Z * Z) :=
  let '(sg, s1) := read_sign (skip_space s) in
  let '(ip, ni, s2) := read_digits s1 0%Z 0%nat in
  let '(m, nf, s3) :=
    match s2 with
    | String c s2' =>
        if is_char 46 c then read_digits s2' ip 0%nat else (ip, 0%nat, s2)
    | EmptyString => (ip, 0%nat, s2)
    end in
  if ((ni + nf)%nat =? 0)%nat then None
  else Some ((sg * m)%Z, (read_exponent s3 - Z.of_nat nf)%Z).

Definition decimal_value (d : Z * Z) : R := IZR (fst d) * powerRZ 10 (snd d).

Definition parseFloat (s : string) : option R := decimal_value <$> parseDecimal s.
Arguments parseFloat : simpl never.

(** [parseFloat(c?.toString() || dflt)]: a number cell prints to a text
    that reads back as the same number; a hole and the empty text are
    replaced by [dflt]. *)
Definition parseCell (dflt : string) (c : cell) : option R :=
  match c with
  | CNum r => Some r
  | CStr s => parseFloat (if bool_decide (s = EmptyString) then dflt else s)
  | CEmpty => parseFloat dflt
  end.

(** [data.map(row => parseFloat(row[i]?.toString() || '0'))
         .filter(val => !isNaN(val))] *)
Definition numericColumn (rows : list (list cell)) (i : nat) : list R :=
  omap (fun row => parseCell "0" (at_col row i)) rows.

End Sheet.

(** ** CorrelationAnalysis.tsx *)

Module Correlation.
Import Sheet.
Export JS (outcome, Failed, Done, quoted).

Record PowerTransformation : Type := {
  pt_lambda : R;
  pt_name : string;
  transform : R -> R
}.

Definition powerTransformations : list PowerTransformation := [
  {| pt_lambda := -2; pt_name := "Inverse square";
     transform := fun value => if JS.leb value 0 then 0 else 1 / (value * value) |};
  {| pt_lambda := -1; pt_name := "Inverse";
     transform := fun value => if JS.leb value 0 then 0 else 1 / value |};
  {| pt_lambda := -0.5; pt_name := "Inverse square root";
     transform := fun value => if JS.leb value 0 then 0 else 1 / sqrt value |};
  {| pt_lambda := 0; pt_name := "Logarithmic";
     transform := fun value => if JS.leb value 0 then 0 else ln value |};
  {| pt_lambda := 0.5; pt_name := "Square root";
     transform := fun value => if JS.ltb value 0 then 0 else sqrt value |};
  {| pt_lambda := 1; pt_name := "None";
     transform := fun value => value |};
  {| pt_lambda := 2; pt_name := "Square";
     transform := fun value => value * value |};
  {| pt_lambda := 3; pt_name := "Cube";
     transform := fun value => value * value * value |}
].

Record VariableStats : Type := {
  mean : R;
  stdDev : R;
  min : R;
  max : R;
  skewness : R;
  kurtosis : R;
  isNormalDistributed : bool;
  optimalLambda : R;
  roundedLambda : R
}.

Record CorrelationResult : Type := {
  coefficient : R;
  pValue : R;
  isSignificant : bool
}.

Definition significanceLevel : R := 0.05.

(** The general Box-Cox value of a positive [v]; [Math.pow(v, lambda)]
    on a positive base is [Rpower]. *)
Definition boxCox (lambda v : R) : R :=
  if JS.ltb (Rabs lambda) 1e-10 then ln v
  else (Rpower v lambda - 1) / lambda.

(** [values.some(v => v <= 0)] *)
Definition someNonPositive (values : list R) : bool :=
  existsb (fun v => JS.leb v 0) values.

(** [calculateBoxCoxLogLikelihood]; [None] is [-Infinity]. *)
Definition calculateBoxCoxLogLikelihood (values : list R) (lambda : R)
  : option R :=
  let n := INR (length values) in
  if (length values =? 0)%nat || someNonPositive values then None
  else
    let transformedValues := map (boxCox lambda) values in
    let mean := JS.sum transformedValues / n in
    let variance :=
      fold_left (fun sum v => sum + (v - mean) ^ 2) transformedValues 0 / n in
    if JS.leb variance 0 then None
    else Some (- n * ln (sqrt variance)
               + (lambda - 1) * fold_left (fun sum v => sum + ln v) values 0).

(** [logLikelihood > bestLogLikelihood] with [-Infinity] as [None]. *)
Definition above (ll best : option R) : bool :=
  match ll, best with
  | Some a, Some b => JS.gtb a b
  | Some _, None => true
  | None, _ => false
  end.

Definition lambdaRange : list R := [-2; -1.5; -1; -0.5; 0; 0.5; 1; 1.5; 2].

Definition findOptimalLambda (values : list R) : R :=
  if someNonPositive values then 1
  else
    fst (fold_left
           (fun '(bestLambda, bestLogLikelihood) lambda =>
              let logLikelihood := calculateBoxCoxLogLikelihood values lambda in
              if above logLikelihood bestLogLikelihood
              then (lambda, logLikelihood)
              else (bestLambda, bestLogLikelihood))
           lambdaRange (1, None)).

(** [roundLambda]: the scan starts from the candidate 1. *)
Definition commonLambdas : list R := [-2; -1; -0.5; 0; 0.5; 1; 2; 3].

Definition closer (lambda : R) (st : R * R) (l : R) : R * R :=
  let '(closestLambda, minDiff) := st in
  let diff := Rabs (lambda - l) in
  if JS.ltb diff minDiff then (l, diff) else (closestLambda, minDiff).

Definition roundLambda (lambda : R) : R :=
  fst (fold_left (closer lambda) commonLambdas (1, Rabs (lambda - 1))).

Definition applyPowerTransformation (values : list R) (lambda : R) : list R :=
  match List.find (fun t => JS.eqb (pt_lambda t) lambda) powerTransformations with
  | Some transformation => map (transform transformation) values
  | None => map (fun value => if JS.leb value 0 then 0 else boxCox lambda value)
                values
  end.

Definition calculateBasicStats (values : list R) : VariableStats :=
  let n := INR (length values) in
  if (length values =? 0)%nat then
    {| mean := 0; stdDev := 0; min := 0; max := 0; skewness := 0;
       kurtosis := 0; isNormalDistributed := false;
       optimalLambda := 1; roundedLambda := 1 |}
  else
    let mean := JS.sum values / n in
    let variance := fold_left (fun sum val => sum + (val - mean) ^ 2) values 0 / n in
    let stdDev := sqrt variance in
    let min := default 0 (JS.Math_min values) in
    let max := default 0 (JS.Math_max values) in
    let skewness :=
      if JS.gtb stdDev 0 then
        let sumCubed := fold_left (fun sum val => sum + (val - mean) ^ 3) values 0 in
        (sumCubed / n) / stdDev ^ 3
      else 0 in
    let kurtosis :=
      if JS.gtb stdDev 0 then
        let sumFourth := fold_left (fun sum val => sum + (val - mean) ^ 4) values 0 in
        (sumFourth / n) / stdDev ^ 4 - 3
      else 0 in
    let isNormalDistributed :=
      JS.ltb (Rabs skewness) 1 && JS.ltb (Rabs kurtosis) 1 in
    let '(optimalLambda, roundedLambda) :=
      if negb isNormalDistributed && negb (someNonPositive values)
      then let o := findOptimalLambda values in (o, roundLambda o)
      else (1, 1) in
    {| mean := mean; stdDev := stdDev; min := min; max := max;
       skewness := skewness; kurtosis := kurtosis;
       isNormalDistributed := isNormalDistributed;
       optimalLambda := optimalLambda; roundedLambda := roundedLambda |}.

(** [calculatePearsonCorrelation]: the means divide the sum of the whole
    array by the shorter length; the loop runs over the common prefix. *)
Definition calculatePearsonCorrelation (x y : list R) : R :=
  let n := Nat.min (length x) (length y) in
  if (n =? 0)%nat then 0
  else
    let xMean := JS.sum x / INR n in
    let yMean := JS.sum y / INR n in
    let '(numerator, xSumSquaredDiff, ySumSquaredDiff) :=
      fold_left
        (fun '(numerator, xss, yss) '(xi, yi) =>
           let xDiff := xi - xMean in
           let yDiff := yi - yMean in
           (numerator + xDiff * yDiff, xss + xDiff * xDiff, yss + yDiff * yDiff))
        (zip x y) (0, 0, 0) in
    if JS.eqb xSumSquaredDiff 0 || JS.eqb ySumSquaredDiff 0 then 0
    else numerator / sqrt (xSumSquaredDiff * ySumSquaredDiff).

(** [calculatePValue].  When [1 - r * r] is not positive the t-statistic
    is an infinity or [NaN], every [tAbs < _] test fails and the last
    value is returned. *)
Definition calculatePValue (r : R) (n : nat) : R :=
  let degreesOfFreedom := INR n - 2 in
  if JS.ltb degreesOfFreedom 1 then 1
  else if JS.leb (1 - r * r) 0 then 0.0001
  else
    let t := r * sqrt degreesOfFreedom / sqrt (1 - r * r) in
    let tAbs := Rabs t in
    if JS.ltb tAbs 1 then 0.5
    else if JS.ltb tAbs 2 then 0.2
    else if JS.ltb tAbs 2.5 then 0.05
    else if JS.ltb tAbs 3 then 0.01
    else if JS.ltb tAbs 4 then 0.001
    else 0.0001.

(** The loop of [extractVariableData] over [selectedVariables]. *)
Fixpoint extractVariables (excelData : ExcelData) (variables : list string)
    (newNumericData : gmap string (list R))
    (newStats : gmap string VariableStats)
  : outcome (gmap string (list R) * gmap string VariableStats) :=
  match variables with
  | [] => Done (newNumericData, newStats)
  | variable :: rest =>
      match JS.indexOf (headers excelData) variable with
      | None => Failed (quoted "Variable '" variable "' not found in data.")
      | Some columnIndex =>
          let values := numericColumn (data excelData) columnIndex in
          if (length values =? 0)%nat then
            Failed (quoted "Variable '" variable "' contains no numeric data.")
          else
            let stats := calculateBasicStats values in
            extractVariables excelData rest
              (<[variable := values]> newNumericData)
              (<[variable := stats]> newStats)
      end
  end.

Definition extractVariableData (excelData : ExcelData)
    (selectedVariables : list string) :=
  extractVariables excelData selectedVariables ∅ ∅.

(** The cell of the matrix for [var1] and [var2]. *)
Definition correlationCell (transformedData : gmap string (list R))
    (var1 var2 : string) : CorrelationResult :=
  if decide (var1 = var2) then
    {| coefficient := 1; pValue := 0; isSignificant := true |}
  else
    let d1 := default [] (transformedData !! var1) in
    let d2 := default [] (transformedData !! var2) in
    let coefficient := calculatePearsonCorrelation d1 d2 in
    let n := Nat.min (length d1) (length d2) in
    let pValue := calculatePValue coefficient n in
    {| coefficient := coefficient; pValue := pValue;
       isSignificant := JS.leb pValue significanceLevel |}.

Definition correlationMatrix (selectedVariables : list string)
    (transformedData : gmap string (list R)) : list (list CorrelationResult) :=
  map (fun var1 => map (correlationCell transformedData var1) selectedVariables)
      selectedVariables.

(** [transformedData[variable] = applyPowerTransformation(
       newNumericData[variable] || [], newStats[variable].roundedLambda)] *)
Definition transformAll (selectedVariables : list string)
    (newNumericData : gmap string (list R))
    (newStats : gmap string VariableStats) : gmap string (list R) :=
  fold_left
    (fun transformedData variable =>
       match newStats !! variable with
       | Some stats =>
           <[variable :=
               applyPowerTransformation
                 (default [] (newNumericData !! variable))
                 (roundedLambda stats)]> transformedData
       | None => transformedData
       end)
    selectedVariables ∅.

Definition handleRun (excelData : option ExcelData)
    (selectedVariables : list string) : outcome (list (list CorrelationResult)) :=
  match excelData with
  | Some excelData =>
      if (length selectedVariables <? 2)%nat then
        Failed "Please select at least two variables for correlation analysis."
      else
        match extractVariableData excelData selectedVariables with
        | Failed message => Failed message
        | Done (newNumericData, newStats) =>
            Done (correlationMatrix selectedVariables
                    (transformAll selectedVariables newNumericData newStats))
        end
  | None => Failed "Please select at least two variables for correlation analysis."
  end.

End Correlation.

(** ** What the host supplies *)

(** [Number.prototype.toString] and [String.prototype.localeCompare] are
    left to the engine; [localeCompare] answers a negative, zero or
    positive integer. *)
Class Host : Type := {
  Number_toString : R -> string;
  localeCompare : string -> string -> Z
}.

(** ** AlternativeMethods.tsx *)

Module Ranking.
Import Sheet.
Export JS (outcome, Failed, Done, quoted).

Inductive AnalysisMethod : Type := topsis | euclidean.

Record CriterionWeight : Type := {
  criterion : string;
  weight : R
}.

Record SupplierScore : Type := {
  supplier : string;
  score : option R;
  distance : option (option R);
  criteriaScores : gmap string (option R);
  originalRank : option nat;
  rankChange : option Z
}.

Record AnalysisResult : Type := {
  method : AnalysisMethod;
  data_suppliers : list string;
  data_criteria : list string;
  rankedSuppliers : list SupplierScore;
  result_evaluationColumn : string;
  weights : gmap string R
}.

(** The state of the component; [totalWeight] is recomputed from
    [criteriaWeights] by an effect and is not kept here. *)
Record State : Type := {
  excelData : option ExcelData;
  selectedMethod : AnalysisMethod;
  selectedVariables : list string;
  evaluationColumn : string;
  criteriaWeights : list CriterionWeight;
  result : option AnalysisResult;
  error : option string;
  originalRankings : gmap string nat
}.

Definition totalWeight (criteriaWeights : list CriterionWeight) : R :=
  fold_left (fun total cw => total + weight cw) criteriaWeights 0.

(** [distributeRemainingWeight]: the list handed to [setCriteriaWeights],
    or the current one when the function returns early. *)
Definition distributeRemainingWeight (criteriaWeights : list CriterionWeight)
  : list CriterionWeight :=
  if (length criteriaWeights =? 0)%nat then criteriaWeights
  else
    let sum := totalWeight criteriaWeights in
    if JS.eqb sum 1 || JS.eqb sum 0 then criteriaWeights
    else
      let remaining := 1 - sum in
      let nonZeroWeights := List.filter (fun cw => JS.gtb (weight cw) 0) criteriaWeights in
      if (length nonZeroWeights =? 0)%nat then
        let equalWeight := 1 / INR (length criteriaWeights) in
        map (fun cw => {| criterion := criterion cw; weight := equalWeight |})
            criteriaWeights
      else
        let totalNonZero := totalWeight nonZeroWeights in
        map (fun cw =>
               if JS.eqb (weight cw) 0 then cw
               else
                 let proportion := weight cw / totalNonZero in
                 {| criterion := criterion cw;
                    weight := weight cw + remaining * proportion |})
            criteriaWeights.

Definition getNormalizedWeights (criteriaWeights : list CriterionWeight)
  : gmap string R :=
  fold_left (fun obj cw => <[criterion cw := weight cw]> obj) criteriaWeights ∅.

(** [a * b] and [a + b] where an operand may be [NaN] or [undefined]. *)
Definition times (a b : option R) : option R := x ← a; y ← b; Some (x * y).
Definition plus (a b : option R) : option R := x ← a; y ← b; Some (x + y).

(** [b.score - a.score > 0] *)
Definition scoreBelow (a b : option R) : bool :=
  match a, b with
  | Some sa, Some sb => JS.gtb (sb - sa) 0
  | _, _ => false
  end.

(** [calculateOriginalRankings].  The inner loop adds up over the entries
    of [criteriaData]; the order of the entries does not change the sum. *)
Definition calculateOriginalRankings (suppliers : list string)
    (criteriaData : gmap string (list R)) (weights : gmap string R)
  : gmap string nat :=
  let supplierScores :=
    omap (fun '(i, name) =>
            let '(totalScore, validCount) :=
              map_fold
                (fun criterion values '(totalScore, validCount) =>
                   match values !! i with
                   | Some v =>
                       (plus totalScore (times (Some v) (weights !! criterion)),
                        S validCount)
                   | None => (totalScore, validCount)
                   end)
                (Some 0, 0%nat) criteriaData in
            if (0 <? validCount)%nat
            then Some (name, x ← totalScore; Some (x / INR validCount))
            else None)
         (zip (seq 0 (length suppliers)) suppliers) in
  let sorted := JS.sort (fun a b => scoreBelow (snd a) (snd b)) supplierScores in
  fold_left (fun rankings '(index, s) => <[fst s := S index]> rankings)
            (zip (seq 0 (length sorted)) sorted) ∅.

(** The extraction loop shared by both variants. *)
Fixpoint extractCriteria (excelData : ExcelData) (criteria : list string)
    (criteriaData : gmap string (list R)) : outcome (gmap string (list R)) :=
  match criteria with
  | [] => Done criteriaData
  | criterion :: rest =>
      match JS.indexOf (headers excelData) criterion with
      | None => Failed (quoted "Criterion '" criterion "' not found.")
      | Some columnIndex =>
          let values := numericColumn (data excelData) columnIndex in
          if (length values =? 0)%nat then
            Failed (quoted "Criterion '" criterion "' contains no numeric data.")
          else extractCriteria excelData rest (<[criterion := values]> criteriaData)
      end
  end.

(** TOPSIS: the score of row [i] on a criterion with these values. *)
Definition topsisNormalized (values : list R) : list R :=
  let sumOfSquares := sqrt (fold_left (fun sum val => sum + val * val) values 0) in
  if JS.eqb sumOfSquares 0 then map (fun _ => 0) values
  else map (fun val => val / sumOfSquares) values.

Definition topsisScore (values : list R) (i : nat) : option R :=
  let normalizedValues := topsisNormalized values in
  normalizedValue ← normalizedValues !! i;
  idealValue ← JS.Math_max normalizedValues;
  antiIdealValue ← JS.Math_min normalizedValues;
  let distanceToIdeal := Rabs (normalizedValue - idealValue) in
  let distanceToAntiIdeal := Rabs (normalizedValue - antiIdealValue) in
  Some (distanceToAntiIdeal
        / JS.or_else (Some (distanceToIdeal + distanceToAntiIdeal)) 1).

(** Euclidean distance: min-max normalisation, ideal point 1. *)
Definition euclideanNormalized (values : list R) : list R :=
  match JS.Math_min values, JS.Math_max values with
  | Some min, Some max =>
      if JS.eqb max min then map (fun _ => 0.5) values
      else map (fun val => (val - min) / (max - min)) values
  | _, _ => []
  end.

Definition euclideanScore (values : list R) (i : nat) : option R :=
  normalizedValue ← euclideanNormalized values !! i;
  let distance := Rabs (normalizedValue - 1) in
  Some (1 - distance / 1).

Definition criterionScore (m : AnalysisMethod) : list R -> nat -> option R :=
  match m with
  | topsis => topsisScore
  | euclidean => euclideanScore
  end.

(** [for (let i = 0; i < suppliers.length; i++)
       supplierCriteriaScores[suppliers[i]][criterion] = score] *)
Fixpoint scoreRows (criterion : string) (scoreAt : nat -> option R) (i : nat)
    (suppliers : list string) (table : gmap string (gmap string (option R)))
  : gmap string (gmap string (option R)) :=
  match suppliers with
  | [] => table
  | s :: rest =>
      scoreRows criterion scoreAt (S i) rest
        (alter (insert criterion (scoreAt i)) s table)
  end.

Definition scoreCriteria (m : AnalysisMethod) (suppliers : list string)
    (criteriaData : gmap string (list R)) (criteria : list string)
    (table : gmap string (gmap string (option R)))
  : gmap string (gmap string (option R)) :=
  fold_left
    (fun table criterion =>
       let values := default [] (criteriaData !! criterion) in
       scoreRows criterion (criterionScore m values) 0 suppliers table)
    criteria table.

(** [criteriaScores[criterion]], [undefined] read as [NaN]. *)
Definition scoreOf (criteriaScores : gmap string (option R)) (criterion : string)
  : option R := mjoin (criteriaScores !! criterion).

Definition overallScore (criteria : list string)
    (criteriaScores : gmap string (option R)) (weights : gmap string R) : option R :=
  fold_left
    (fun overall criterion =>
       plus overall (times (scoreOf criteriaScores criterion) (weights !! criterion)))
    criteria (Some 0).

Definition totalWeightedDistance (criteria : list string)
    (criteriaScores : gmap string (option R)) (weights : gmap string R) : option R :=
  fold_left
    (fun total criterion =>
       let distance := s ← scoreOf criteriaScores criterion; Some (1 - s) in
       plus total (times distance (weights !! criterion)))
    criteria (Some 0).

Definition withRanks (originalRanks : gmap string nat) (index : nat)
    (s : SupplierScore) : SupplierScore :=
  let newRank := S index in
  let originalRank := default 0%nat (originalRanks !! supplier s) in
  {| supplier := supplier s; score := score s; distance := distance s;
     criteriaScores := criteriaScores s;
     originalRank := Some originalRank;
     rankChange := Some (Z.of_nat originalRank - Z.of_nat newRank)%Z |}.

Section perform.
Context `{Host}.

(** [row[evaluationColumnIndex]?.toString() || ''] *)
Definition supplierName (c : cell) : string :=
  match c with
  | CNum r => Number_toString r
  | CStr s => s
  | CEmpty => EmptyString
  end.

(** The body shared by [performTOPSIS] and [performEuclideanDistance]:
    the two functions differ in the score of a row on a criterion and
    in the [distance] field. *)
Definition perform (m : AnalysisMethod) (st : State)
  : outcome (gmap string nat * AnalysisResult) :=
  let unselected :=
    Failed "Please select the supplier column and at least one criterion." in
  match excelData st with
  | None => unselected
  | Some excel =>
      if bool_decide (evaluationColumn st = EmptyString)
         || (length (selectedVariables st) =? 0)%nat
      then unselected
      else
        match JS.indexOf (headers excel) (evaluationColumn st) with
        | None =>
            Failed (quoted "Evaluation column '" (evaluationColumn st) "' not found.")
        | Some evaluationColumnIndex =>
            let suppliers :=
              map (fun row => supplierName (at_col row evaluationColumnIndex))
                  (data excel) in
            match extractCriteria excel (selectedVariables st) ∅ with
            | Failed message => Failed message
            | Done criteriaData =>
                let normalizedWeights := getNormalizedWeights (criteriaWeights st) in
                let originalRanks :=
                  calculateOriginalRankings suppliers criteriaData normalizedWeights in
                let supplierCriteriaScores :=
                  scoreCriteria m suppliers criteriaData (selectedVariables st)
                    (fold_left (fun table s => <[s := ∅]> table) suppliers ∅) in
                let supplierScores :=
                  map (fun supplier =>
                         let criteriaScores :=
                           default ∅ (supplierCriteriaScores !! supplier) in
                         {| supplier := supplier;
                            score := overallScore (selectedVariables st)
                                       criteriaScores normalizedWeights;
                            distance :=
                              match m with
                              | topsis => None
                              | euclidean =>
                                  Some (totalWeightedDistance (selectedVariables st)
                                          criteriaScores normalizedWeights)
                              end;
                            criteriaScores := criteriaScores;
                            originalRank := None;
                            rankChange := None |})
                      suppliers in
                let sorted :=
                  JS.sort (fun a b => scoreBelow (score a) (score b)) supplierScores in
                Done (originalRanks,
                      {| method := m;
                         data_suppliers := suppliers;
                         data_criteria := selectedVariables st;
                         rankedSuppliers := imap (withRanks originalRanks) sorted;
                         result_evaluationColumn := evaluationColumn st;
                         weights := normalizedWeights |})
            end
        end
  end.

Definition performTOPSIS : State -> outcome (gmap string nat * AnalysisResult) :=
  perform topsis.

Definition performEuclideanDistance
  : State -> outcome (gmap string nat * AnalysisResult) :=
  perform euclidean.

(** [handleRun]: the state of the next render.  The ranking reads the
    [criteriaWeights] of the current render; the list computed by
    [distributeRemainingWeight] only reaches the next one. *)
Definition handleRun (st : State) : State :=
  let nextWeights := distributeRemainingWeight (criteriaWeights st) in
  let analysisResult :=
    match selectedMethod st with
    | topsis => performTOPSIS st
    | euclidean => performEuclideanDistance st
    end in
  match analysisResult with
  | Done (originalRanks, analysisResult) =>
      {| excelData := excelData st;
         selectedMethod := selectedMethod st;
         selectedVariables := selectedVariables st;
         evaluationColumn := evaluationColumn st;
         criteriaWeights := nextWeights;
         result := Some analysisResult;
         error := None;
         originalRankings := originalRanks |}
  | Failed message =>
      {| excelData := excelData st;
         selectedMethod := selectedMethod st;
         selectedVariables := selectedVariables st;
         evaluationColumn := evaluationColumn st;
         criteriaWeights := nextWeights;
         result := result st;
         error := Some message;
         originalRankings := originalRankings st |}
  end.
End perform.

End Ranking.

(** ** EarlyDetection.tsx *)

Module Forecast.
Import Sheet.
Export JS (outcome, Failed, Done, quoted).

Inductive Trend : Type := up | down | stable.

Record Series : Type := {
  values : list R;
  times : list cell
}.

(** [SupplierHistory]: objects keyed by supplier, then by category, read
    back in insertion order by [Object.entries] (keys that spell an array
    index would come first, which the model does not follow). *)
Definition SupplierHistory : Type := list (string * list (string * Series)).

Record PredictionResult : Type := {
  supplier : string;
  category : string;
  actualValues : list R;
  predictedValues : list R;
  nextPrediction : R;
  accuracy : R;
  trend : Trend;
  letterGrade : string;
  predictedLetterGrade : string
}.

Record State : Type := {
  excelData : option ExcelData;
  timeColumn : string;
  supplierColumn : string;
  categoryColumns : list string;
  alphaValue : R;
  declineThreshold : R;
  supplierHistory : SupplierHistory;
  predictionResults : list PredictionResult;
  overallAccuracy : R;
  cdGradeAccuracy : R;
  error : option string;
  tabValue : nat
}.

Definition getLetterGrade (score : R) : string :=
  if JS.geb score 85 then "A"
  else if JS.geb score 70 then "B"
  else if JS.geb score 50 then "C"
  else "D".

(** The loop [for (let i = 1; i < data.length; i++)] of
    [exponentialSmoothing], with [steps] iterations left. *)
Fixpoint smoothingLoop (data : list R) (alpha : R) (steps i : nat)
    (result : list R) : list R :=
  match steps with
  | O => result
  | S steps' =>
      let smoothed :=
        alpha * nth (i - 1) data 0 + (1 - alpha) * nth (i - 1) result 0 in
      smoothingLoop data alpha steps' (S i) (result ++ [smoothed])
  end.

Definition exponentialSmoothing (data : list R) (alpha : R) : list R :=
  match data with
  | [] => []
  | first :: _ =>
      let result := smoothingLoop data alpha (length data - 1) 1 [first] in
      let nextPrediction :=
        alpha * nth (length data - 1) data 0
        + (1 - alpha) * nth (length result - 1) result 0 in
      result ++ [nextPrediction]
  end.

Definition calculateAccuracy (actual predicted : list R) : R :=
  if (length actual =? 0)%nat || negb (length predicted =? length actual)%nat
  then 0
  else
    let totalError :=
      fold_left (fun total '(a, p) => total + Rabs (a - p)) (zip actual predicted) 0 in
    100 - totalError / INR (length actual).

(** [calculateTrend].  A division by [prevValue = 0] gives an infinity
    with the sign of the numerator, or [NaN] for 0 / 0, and [NaN] compares
    false with everything. *)
Definition calculateTrend (declineThreshold : R) (lastPredictions : list R)
  : Trend :=
  if (length lastPredictions <? 2)%nat then stable
  else
    let lastValue := nth (length lastPredictions - 1) lastPredictions 0 in
    let prevValue := nth (length lastPredictions - 2) lastPredictions 0 in
    if JS.eqb prevValue 0 then
      if JS.gtb (lastValue - prevValue) 0 then up
      else if JS.ltb (lastValue - prevValue) 0 then down
      else stable
    else
      let percentChange := (lastValue - prevValue) / prevValue * 100 in
      if JS.gtb percentChange declineThreshold then up
      else if JS.ltb percentChange (- declineThreshold) then down
      else stable.

(** An object read and written by key, its keys kept in insertion order. *)
Fixpoint lookupKey {V : Type} (k : string) (o : list (string * V)) : option V :=
  match o with
  | [] => None
  | (k', v) :: o' => if decide (k' = k) then Some v else lookupKey k o'
  end.

Fixpoint setKey {V : Type} (k : string) (v : V) (o : list (string * V))
  : list (string * V) :=
  match o with
  | [] => [(k, v)]
  | (k', v') :: o' =>
      if decide (k' = k) then (k, v) :: o' else (k', v') :: setKey k v o'
  end.

Section extract.
Context `{Host}.

(** [c.toString()] of a truthy cell, and a value used as a property key. *)
Definition cellText (c : cell) : string :=
  match c with
  | CNum r => Number_toString r
  | CStr s => s
  | CEmpty => EmptyString
  end.

(** One row of the sheet as a [PerformanceData] entry: the keys
    [supplier] and [time], then one key for each category column whose
    cell reads as a number.  [None] when the row is skipped. *)
Definition rowEntry (timeColumnIndex supplierColumnIndex : nat)
    (categories : list (string * nat)) (row : list cell)
  : option (gmap string cell) :=
  if negb (truthy (at_col row timeColumnIndex))
     || negb (truthy (at_col row supplierColumnIndex))
  then None
  else
    let entry0 : gmap string cell :=
      <["time" := at_col row timeColumnIndex]>
        (<["supplier" := CStr (cellText (at_col row supplierColumnIndex))]> ∅) in
    let '(entry, hasValidData) :=
      fold_left
        (fun '(entry, hasValidData) '(name, index) =>
           match parseCell EmptyString (at_col row index) with
           | Some value => (<[name := CNum value]> entry, true)
           | None => (entry, hasValidData)
           end)
        categories (entry0, false) in
    if hasValidData then Some entry else None.

(** [history[supplier][category].values.push(...)] for one entry. *)
Definition addEntry (categoryColumns : list string) (history : SupplierHistory)
    (entry : gmap string cell) : SupplierHistory :=
  let supplier := cellText (default CEmpty (entry !! "supplier"%string)) in
  let history :=
    match lookupKey supplier history with
    | Some _ => history
    | None => setKey supplier [] history
    end in
  fold_left
    (fun history category =>
       match entry !! category with
       | Some (CNum value) =>
           let ofSupplier := default [] (lookupKey supplier history) in
           let series :=
             default {| values := []; times := [] |} (lookupKey category ofSupplier) in
           setKey supplier
             (setKey category
                {| values := values series ++ [value];
                   times := times series
                            ++ [default CEmpty (entry !! "time"%string)] |}
                ofSupplier)
             history
       | _ => history
       end)
    categoryColumns history.

(** [categoryColumns.map(col => ...indexOf(col)...)]: the name of the
    first column that is not found, or the indices. *)
Fixpoint categoryIndices (headers : list string) (cols : list string)
  : string + list nat :=
  match cols with
  | [] => inr []
  | col :: rest =>
      match JS.indexOf headers col with
      | None => inl col
      | Some idx =>
          match categoryIndices headers rest with
          | inl missing => inl missing
          | inr indices => inr (idx :: indices)
          end
      end
  end.

(** [extractData]: the history handed to [setSupplierHistory]. *)
Definition extractData (st : State) : outcome SupplierHistory :=
  let unselected := Failed "Please select required columns for analysis." in
  match excelData st with
  | None => unselected
  | Some excel =>
      if bool_decide (timeColumn st = EmptyString)
         || bool_decide (supplierColumn st = EmptyString)
         || (length (categoryColumns st) =? 0)%nat
      then unselected
      else
        match JS.indexOf (headers excel) (timeColumn st),
              JS.indexOf (headers excel) (supplierColumn st) with
        | Some timeColumnIndex, Some supplierColumnIndex =>
            match categoryIndices (headers excel) (categoryColumns st) with
            | inl col =>
                Failed (quoted "Error extracting data: Category column '" col
                               "' not found in data.")
            | inr indices =>
                let entries :=
                  omap (rowEntry timeColumnIndex supplierColumnIndex
                          (zip (categoryColumns st) indices))
                       (data excel) in
                if (length entries =? 0)%nat then
                  Failed "No valid data found for analysis."
                else Done (fold_left (addEntry (categoryColumns st)) entries [])
            end
        | _, _ => Failed "Selected columns not found in data."
        end
  end.

(** The body of the two loops of [runPrediction] for one series. *)
Definition predict (alphaValue declineThreshold : R) (supplier category : string)
    (series : Series) : option PredictionResult :=
  if (length (values series) <? 3)%nat then None
  else
    let actualValues := values series in
    let smoothedValues := exponentialSmoothing (values series) alphaValue in
    let nextPrediction := nth (length smoothedValues - 1) smoothedValues 0 in
    let predictedValues := take (length smoothedValues - 1) smoothedValues in
    Some {| supplier := supplier;
            category := category;
            actualValues := actualValues;
            predictedValues := predictedValues;
            nextPrediction := nextPrediction;
            accuracy := calculateAccuracy actualValues predictedValues;
            trend := calculateTrend declineThreshold smoothedValues;
            letterGrade :=
              getLetterGrade (nth (length actualValues - 1) actualValues 0);
            predictedLetterGrade :=
              getLetterGrade (nth (length predictedValues - 1) predictedValues 0) |}.

Definition predictAll (alphaValue declineThreshold : R) (history : SupplierHistory)
  : list PredictionResult :=
  flat_map
    (fun '(supplier, categories) =>
       omap (fun '(category, series) =>
               predict alphaValue declineThreshold supplier category series)
            categories)
    history.

(** The comparator of [results.sort]: declining entries first, then by
    supplier. *)
Definition sortsAfter (a b : PredictionResult) : bool :=
  match trend a, trend b with
  | down, down => (0 <? localeCompare (supplier a) (supplier b))%Z
  | down, _ => false
  | _, down => true
  | _, _ => (0 <? localeCompare (supplier a) (supplier b))%Z
  end.

Definition gradeMatches (r : PredictionResult) : bool :=
  bool_decide (letterGrade r = predictedLetterGrade r).

Definition isCD (r : PredictionResult) : bool :=
  bool_decide (letterGrade r = "C"%string) || bool_decide (letterGrade r = "D"%string).

(** [runPrediction]: the state of the next render.  The loops run over
    [supplierHistory] as the current render holds it. *)
Definition runPrediction (st : State) : State :=
  match extractData st with
  | Failed message =>
      {| excelData := excelData st; timeColumn := timeColumn st;
         supplierColumn := supplierColumn st;
         categoryColumns := categoryColumns st;
         alphaValue := alphaValue st; declineThreshold := declineThreshold st;
         supplierHistory := supplierHistory st;
         predictionResults := predictionResults st;
         overallAccuracy := overallAccuracy st;
         cdGradeAccuracy := cdGradeAccuracy st;
         error := Some message;
         tabValue := tabValue st |}
  | Done history =>
      let results :=
        predictAll (alphaValue st) (declineThreshold st) (supplierHistory st) in
      let totalPredictions := length results in
      let totalGradeMatches := length (List.filter gradeMatches results) in
      let totalCDGrades := length (List.filter isCD results) in
      let cdGradeMatches :=
        length (List.filter gradeMatches (List.filter isCD results)) in
      {| excelData := excelData st; timeColumn := timeColumn st;
         supplierColumn := supplierColumn st;
         categoryColumns := categoryColumns st;
         alphaValue := alphaValue st; declineThreshold := declineThreshold st;
         supplierHistory := history;
         predictionResults := JS.sort sortsAfter results;
         overallAccuracy :=
           if (0 <? totalPredictions)%nat
           then INR totalGradeMatches / INR totalPredictions * 100
           else overallAccuracy st;
         cdGradeAccuracy :=
           if (0 <? totalCDGrades)%nat
           then INR cdGradeMatches / INR totalCDGrades * 100
           else cdGradeAccuracy st;
         error := error st;
         tabValue := 1 |}
  end.

End extract.

End Forecast.

(** ** SensitivityAnalysis.tsx *)

Module Sensitivity.

Record CategoryWeight : Type := {
  category : string;
  weight : R;
  selected : bool
}.

Record SupplierScore : Type := {
  supplier : string;
  supplierScore : R;
  categoryScores : gmap string R
}.

Inductive Goal : Type := maximize | minimize.

Record State : Type := {
  categories : list CategoryWeight;
  suppliers : list SupplierScore;
  targetCategory : string;
  optimizationGoal : Goal;
  originalWeights : gmap string R;
  newWeights : option (gmap string R);
  absoluteChanges : option (gmap string R);
  newSupplierScores : list SupplierScore;
  error : option string
}.

(** [map[key] || 0] *)
Definition weightOr0 (m : gmap string R) (key : string) : R :=
  JS.or_else (m !! key) 0.

Definition calculateNewSupplierScores (suppliers : list SupplierScore)
    (newWeights : gmap string R) : list SupplierScore :=
  map (fun s =>
         {| supplier := supplier s;
            supplierScore :=
              map_fold
                (fun category categoryScore sum =>
                   sum + JS.or_else (Some categoryScore) 0
                         * weightOr0 newWeights category)
                0 (categoryScores s);
            categoryScores := categoryScores s |})
      suppliers.

Definition selectedCategories (categories : list CategoryWeight)
  : list CategoryWeight :=
  List.filter selected categories.

(** [totalWeight], which an effect keeps equal to the sum of the selected
    weights. *)
Definition totalWeight (categories : list CategoryWeight) : R :=
  fold_left (fun acc cat => acc + weight cat) (selectedCategories categories) 0.

(** [origWeights[cat.category] = cat.weight] for each selected category. *)
Definition saveWeights (selectedCategories : list CategoryWeight) : gmap string R :=
  fold_left (fun origWeights cat => <[category cat := weight cat]> origWeights)
            selectedCategories ∅.

Definition bestWeight (goal : Goal) (targetCurrentWeight : R) : R :=
  match goal with
  | maximize => Rmin 0.9 (targetCurrentWeight * 2)
  | minimize => Rmax 0.1 (targetCurrentWeight / 2)
  end.

(** [selectedCategories.filter(c => c.category !== targetCategory)] *)
Definition otherCategories (targetCategory : string)
    (selectedCategories : list CategoryWeight) : list CategoryWeight :=
  List.filter (fun c => negb (bool_decide (category c = targetCategory)))
              selectedCategories.

(** Every other category is a key of [origWeights], so the reads below
    never meet [undefined]. *)
Definition totalOtherWeight (origWeights : gmap string R)
    (otherCategories : list CategoryWeight) : R :=
  fold_left (fun sum c => sum + default 0 (origWeights !! category c))
            otherCategories 0.

Definition ratio (origWeights : gmap string R)
    (otherCategories : list CategoryWeight) (cat : CategoryWeight) : R :=
  if JS.gtb (totalOtherWeight origWeights otherCategories) 0
  then default 0 (origWeights !! category cat)
       / totalOtherWeight origWeights otherCategories
  else 1 / INR (length otherCategories).

(** The new weight map: the target takes [bestWeight], the other selected
    categories share the remainder.  The two branches of the source differ
    in [bestWeight] only. *)
Definition reallocate (goal : Goal) (targetCategory : string)
    (selectedCategories : list CategoryWeight) (origWeights : gmap string R)
  : gmap string R :=
  let targetCurrentWeight := weightOr0 origWeights targetCategory in
  let otherCategories := otherCategories targetCategory selectedCategories in
  let best := bestWeight goal targetCurrentWeight in
  let remainingWeight := 1.0 - best in
  fold_left
    (fun weightMap cat =>
       <[category cat := remainingWeight * ratio origWeights otherCategories cat]>
         weightMap)
    otherCategories
    (<[targetCategory := best]> origWeights).

Definition absoluteChange (selectedCategories : list CategoryWeight)
    (origWeights weightMap : gmap string R) : gmap string R :=
  fold_left
    (fun yMap cat =>
       let oldWeight := weightOr0 origWeights (category cat) in
       let newWeight := weightOr0 weightMap (category cat) in
       <[category cat := Rabs (newWeight - oldWeight)]> yMap)
    selectedCategories ∅.

Definition failWith (st : State) (message : string) : State :=
  {| categories := categories st; suppliers := suppliers st;
     targetCategory := targetCategory st;
     optimizationGoal := optimizationGoal st;
     originalWeights := originalWeights st;
     newWeights := newWeights st;
     absoluteChanges := absoluteChanges st;
     newSupplierScores := newSupplierScores st;
     error := Some message |}.

Definition runSensitivityAnalysis (st : State) : State :=
  if bool_decide (targetCategory st = EmptyString) then
    failWith st "Please select a target category to optimize"
  else
    let selectedCategories := selectedCategories (categories st) in
    if (length selectedCategories <? 2)%nat then
      failWith st "Please select at least 2 categories for the analysis"
    else
      let origWeights := saveWeights selectedCategories in
      let weightMap :=
        reallocate (optimizationGoal st) (targetCategory st)
                   selectedCategories origWeights in
      let yMap := absoluteChange selectedCategories origWeights weightMap in
      {| categories := categories st; suppliers := suppliers st;
         targetCategory := targetCategory st;
         optimizationGoal := optimizationGoal st;
         originalWeights := origWeights;
         newWeights := Some weightMap;
         absoluteChanges := Some yMap;
         newSupplierScores := calculateNewSupplierScores (suppliers st) weightMap;
         error := None |}.

End Sensitivity.

(** ** Definitions used to state the properties *)

Module Stating.
Import Sheet.

(** The scan of [roundLambda] over any list of candidates, from any seed. *)
Definition scan (lambda : R) (ls : list R) (c : R) : R * R :=
  fold_left (Correlation.closer lambda) ls (c, Rabs (lambda - c)).

(** What the cell of one row adds to the series of a column read with
    [numericColumn]. *)
Definition contribution (c : cell) : list R :=
  match c with
  | CNum r => [r]
  | CEmpty => [0]
  | CStr s =>
      if bool_decide (s = EmptyString) then [0]
      else match parseFloat s with Some v => [v] | None => [] end
  end.

(** The sum of the new weights of the selected categories, each read as
    the result table reads it, [newWeights[cat.category] || 0]. *)
Definition newTotal (newWeights : gmap string R)
    (categories : list Sensitivity.CategoryWeight) : R :=
  fold_left
    (fun acc cat => acc + Sensitivity.weightOr0 newWeights (Sensitivity.category cat))
    (Sensitivity.selectedCategories categories) 0.

(** A column with a number, a hole and an empty text. *)
Definition sample : ExcelData :=
  {| headers := ["a"%string]; data := [[CNum 1]; [CEmpty]; [CStr EmptyString]];
     sheetNames := []; activeSheet := EmptyString |}.

(** Two constant columns. *)
Definition two : ExcelData :=
  {| headers := ["a"%string; "b"%string];
     data := [[CNum 1; CNum 2]; [CNum 1; CNum 2]];
     sheetNames := []; activeSheet := EmptyString |}.

(** Two selected categories, the target at weight 0.02. *)
Definition low : Sensitivity.State :=
  {| Sensitivity.categories :=
       [ {| Sensitivity.category := "a"; Sensitivity.weight := 0.02;
            Sensitivity.selected := true |};
         {| Sensitivity.category := "b"; Sensitivity.weight := 0.98;
            Sensitivity.selected := true |} ];
     Sensitivity.suppliers := [];
     Sensitivity.targetCategory := "a";
     Sensitivity.optimizationGoal := Sensitivity.maximize;
     Sensitivity.originalWeights := ∅;
     Sensitivity.newWeights := None;
     Sensitivity.absoluteChanges := None;
     Sensitivity.newSupplierScores := [];
     Sensitivity.error := None |}.

End Stating.

Module RankingInputs.
Import Sheet Ranking.

(** A host for the examples, none of which has a number in an identifier
    column. *)
Definition plainHost : Host :=
  {| Number_toString := fun _ => "0"%string;
     localeCompare := fun a b =>
       match String.compare a b with Lt => (-1)%Z | Eq => 0%Z | Gt => 1%Z end |}.

(** Two rows with the identifier A. *)
Definition twice : State :=
  {| excelData :=
       Some {| headers := ["id"%string; "q"%string];
               data := [[CStr "A"; CNum 1]; [CStr "B"; CNum 2]; [CStr "A"; CNum 3]];
               sheetNames := []; activeSheet := EmptyString |};
     selectedMethod := euclidean;
     selectedVariables := ["q"%string];
     evaluationColumn := "id";
     criteriaWeights := [{| criterion := "q"; weight := 1 |}];
     result := None;
     error := None;
     originalRankings := ∅ |}.

(** A constant criterion column with one text cell. *)
Definition ragged (m : AnalysisMethod) : State :=
  {| excelData :=
       Some {| headers := ["id"%string; "q"%string];
               data := [[CStr "A"; CNum 5]; [CStr "B"; CStr "n/a"]];
               sheetNames := []; activeSheet := EmptyString |};
     selectedMethod := m;
     selectedVariables := ["q"%string];
     evaluationColumn := "id";
     criteriaWeights := [{| criterion := "q"; weight := 1 |}];
     result := None;
     error := None;
     originalRankings := ∅ |}.

(** Two criteria with weights 0.3 and 0.3. *)
Definition light (m : AnalysisMethod) : State :=
  {| excelData :=
       Some {| headers := ["id"%string; "q"%string; "p"%string];
               data := [[CStr "A"; CNum 1; CNum 1]; [CStr "B"; CNum 3; CNum 2]];
               sheetNames := []; activeSheet := EmptyString |};
     selectedMethod := m;
     selectedVariables := ["q"%string; "p"%string];
     evaluationColumn := "id";
     criteriaWeights := [{| criterion := "q"; weight := 0.3 |};
                         {| criterion := "p"; weight := 0.3 |}];
     result := None;
     error := None;
     originalRankings := ∅ |}.

End RankingInputs.

Module ForecastInputs.
Import Sheet Forecast.

(** A first render: no run has happened, one supplier with three observations. *)
Definition fresh : State :=
  {| excelData :=
       Some {| headers := ["t"%string; "id"%string; "q"%string];
               data := [[CStr "t1"; CStr "S"; CNum 80];
                        [CStr "t2"; CStr "S"; CNum 60];
                        [CStr "t3"; CStr "S"; CNum 70]];
               sheetNames := []; activeSheet := EmptyString |};
     timeColumn := "t";
     supplierColumn := "id";
     categoryColumns := ["q"%string];
     alphaValue := 0.4;
     declineThreshold := 5;
     supplierHistory := [];
     predictionResults := [];
     overallAccuracy := 0;
     cdGradeAccuracy := 0;
     error := None;
     tabValue := 0 |}.

(** The series of the one supplier of [fresh]. *)
Definition observed : SupplierHistory :=
  [("S"%string,
    [("q"%string,
      {| values := [80; 60; 70];
         times := [CStr "t1"; CStr "t2"; CStr "t3"] |})])].

End ForecastInputs.

(** ** AlternativeMethods.tsx: selection and weight controls *)

Module RankingWeights.
Import Ranking.

(** [handleVariableToggle].  [handleVariableToggle] of
    CorrelationAnalysis.tsx and [handleCategoryToggle] of
    EarlyDetection.tsx are the same function. *)
Definition handleVariableToggle (variable : string) (prev : list string)
  : list string :=
  if bool_decide (variable ∈ prev)
  then List.filter (fun v => negb (bool_decide (v = variable))) prev
  else prev ++ [variable].


(** [handleWeightChange]: the list handed to [setCriteriaWeights], or the
    current one when the criterion is not found.  The state [totalWeight]
    is the sum of [criteriaWeights], which an effect keeps up to date. *)
Definition handleWeightChange (criterion : string) (value : R)
    (criteriaWeights : list CriterionWeight) : list CriterionWeight :=
  match List.find (fun cw => bool_decide (Ranking.criterion cw = criterion))
                  criteriaWeights with
  | None => criteriaWeights
  | Some currentCriterion =>
      let currentWeight := weight currentCriterion in
      let weightDifference := value - currentWeight in
      let totalWeight := totalWeight criteriaWeights in
      let value :=
        if JS.gtb (totalWeight + weightDifference) 1
        then currentWeight + (1 - totalWeight)
        else value in
      map (fun cw =>
             if bool_decide (Ranking.criterion cw = criterion)
             then {| Ranking.criterion := Ranking.criterion cw; weight := value |}
             else cw)
          criteriaWeights
  end.

(** [resetToEqualWeights] *)
Definition resetToEqualWeights (selectedVariables : list string)
    (criteriaWeights : list CriterionWeight) : list CriterionWeight :=
  if (length selectedVariables =? 0)%nat then criteriaWeights
  else
    let equalWeight := 1 / INR (length selectedVariables) in
    map (fun cw => {| criterion := criterion cw; weight := equalWeight |})
        criteriaWeights.

End RankingWeights.

(** ** SensitivityAnalysis.tsx: weight controls *)

Module SensitivityWeights.
Import Sensitivity.

(** [handleWeightChange]: the list handed to [setCategories]. *)
Definition handleWeightChange (category : string) (newWeight : R)
    (categories : list CategoryWeight) : list CategoryWeight :=
  match List.find (fun cat => bool_decide (Sensitivity.category cat = category))
                  categories with
  | None => categories
  | Some currentCat =>
      let currentWeight := weight currentCat in
      let weightDifference := newWeight - currentWeight in
      let selectedCategories := List.filter selected categories in
      let currentTotal :=
        fold_left (fun sum cat => sum + weight cat) selectedCategories 0 in
      let newWeight :=
        if JS.gtb (currentTotal + weightDifference) 1
        then currentWeight + (1 - currentTotal)
        else newWeight in
      map (fun cat =>
             if bool_decide (Sensitivity.category cat = category)
             then {| Sensitivity.category := Sensitivity.category cat;
                     weight := newWeight; selected := selected cat |}
             else cat)
          categories
  end.

(** [handleCategoryToggle] *)
Definition handleCategoryToggle (category : string)
    (categories : list CategoryWeight) : list CategoryWeight :=
  map (fun cat =>
         if bool_decide (Sensitivity.category cat = category)
         then {| Sensitivity.category := Sensitivity.category cat;
                 weight := weight cat; selected := negb (selected cat) |}
         else cat)
      categories.

(** [normalizeWeights]: the list handed to [setCategories], or the current
    one when the function returns early.  With a sum of 0 the quotients
    are [NaN] or an infinity, no number of the model: [None]. *)
Definition normalizeWeights (categories : list CategoryWeight)
  : option (list CategoryWeight) :=
  let selectedCategories := List.filter selected categories in
  if (length selectedCategories =? 0)%nat then Some categories
  else
    let sum := fold_left (fun acc cat => acc + weight cat) selectedCategories 0 in
    if JS.ltb (Rabs (sum - 1)) 0.001 then Some categories
    else if JS.eqb sum 0 then None
    else
      Some (map (fun cat =>
                   if selected cat
                   then {| category := Sensitivity.category cat;
                           weight := weight cat / sum; selected := selected cat |}
                   else cat)
                categories).

(** [resetToEqualWeights]: the state of the next render. *)
Definition resetToEqualWeights (st : State) : State :=
  let selectedCategories := List.filter selected (categories st) in
  if (length selectedCategories =? 0)%nat then st
  else
    let equalWeight := 1 / INR (length selectedCategories) in
    {| categories :=
         map (fun cat =>
                if selected cat
                then {| category := Sensitivity.category cat;
                        weight := equalWeight; selected := selected cat |}
                else cat)
             (categories st);
       suppliers := suppliers st;
       targetCategory := targetCategory st;
       optimizationGoal := optimizationGoal st;
       originalWeights := originalWeights st;
       newWeights := None;
       absoluteChanges := None;
       newSupplierScores := newSupplierScores st;
       error := error st |}.

End SensitivityWeights.

(** ** FileContext.tsx: edits of the sheet *)

(** Every function of the context returns at once while no sheet is
    loaded; the functions below are given the sheet. *)

Module FileContext.
Import Sheet.

(** [row[colIndex] = value]: an assignment past the end of the row leaves
    holes before the new cell. *)
Definition setCell (row : list cell) (colIndex : nat) (value : cell) : list cell :=
  if (colIndex <? length row)%nat then <[colIndex := value]> row
  else row ++ replicate (colIndex - length row) CEmpty ++ [value].

(** [updateCell]: the sheet handed to [setExcelData]; [None] when there is
    no row [rowIndex] and the assignment throws.  The row written to is
    the row object of the current sheet, which the new sheet shares. *)
Definition updateCell (rowIndex colIndex : nat) (value : cell)
    (excelData : ExcelData) : option ExcelData :=
  match data excelData !! rowIndex with
  | None => None
  | Some row =>
      Some {| headers := headers excelData;
              data := <[rowIndex := setCell row colIndex value]> (data excelData);
              sheetNames := sheetNames excelData;
              activeSheet := activeSheet excelData |}
  end.

(** [addRow] *)
Definition addRow (excelData : ExcelData) : ExcelData :=
  let newRow := replicate (length (headers excelData)) (CStr EmptyString) in
  {| headers := headers excelData;
     data := data excelData ++ [newRow];
     sheetNames := sheetNames excelData;
     activeSheet := activeSheet excelData |}.

(** [addColumn] called with a header, as the grid calls it. *)
Definition addColumn (header : string) (excelData : ExcelData) : ExcelData :=
  {| headers := headers excelData ++ [header];
     data := map (fun row => row ++ [CStr EmptyString]) (data excelData);
     sheetNames := sheetNames excelData;
     activeSheet := activeSheet excelData |}.

(** [removeRow]: [data.filter((_, index) => index !== rowIndex)] *)
Definition removeRow (rowIndex : nat) (excelData : ExcelData) : ExcelData :=
  {| headers := headers excelData;
     data :=
       map snd
         (List.filter (fun '(index, _) => negb (index =? rowIndex)%nat)
                      (imap pair (data excelData)));
     sheetNames := sheetNames excelData;
     activeSheet := activeSheet excelData |}.

End FileContext.

(** ** Definitions used to state further properties *)

Module Shapes.
Import Sheet.


End Shapes.

(** * Properties *)

(** ** Comparisons *)

Module JSFacts.

Lemma ltb_spec (a b : R) : JS.ltb a b = true <-> a < b.
Proof. unfold JS.ltb. destruct (Rlt_dec a b); split; [done|done|lra|done]. Qed.

Lemma leb_spec (a b : R) : JS.leb a b = true <-> a <= b.
Proof. unfold JS.leb. destruct (Rle_dec a b); split; [done|done|lra|done]. Qed.

Lemma eqb_spec (a b : R) : JS.eqb a b = true <-> a = b.
Proof. unfold JS.eqb. destruct (Req_dec_T a b); split; [done|done|done|done]. Qed.

Lemma ltb_false (a b : R) : JS.ltb a b = false <-> b <= a.
Proof. unfold JS.ltb. destruct (Rlt_dec a b); split; [done|lra|lra|done]. Qed.


Lemma eqb_false (a b : R) : JS.eqb a b = false <-> a <> b.
Proof. unfold JS.eqb. destruct (Req_dec_T a b); split; [done|done|done|done]. Qed.

Lemma eqb_refl (a : R) : JS.eqb a a = true.
Proof. by apply eqb_spec. Qed.

End JSFacts.

(** ** Sums written as [reduce] *)

Module Sums.
Section sums.
Context {A : Type}.

Lemma sum_shift (g : A -> R) (l : list A) : forall a,
  fold_left (fun sum c => sum + g c) l a
  = a + fold_left (fun sum c => sum + g c) l 0.
Proof.
  induction l as [|c l IH]; intros a; simpl; [lra|].
  rewrite IH, (IH (0 + g c)). lra.
Qed.

Lemma sum_ext (g h : A -> R) (l : list A) :
  (forall c, In c l -> g c = h c) ->
  fold_left (fun sum c => sum + g c) l 0 = fold_left (fun sum c => sum + h c) l 0.
Proof.
  induction l as [|c l IH]; intros Hgh; simpl; [done|].
  rewrite (sum_shift g l (0 + g c)), (sum_shift h l (0 + h c)).
  rewrite IH by (intros; apply Hgh; by right).
  rewrite (Hgh c) by (by left). done.
Qed.

Lemma sum_split (p : A -> bool) (g : A -> R) (l : list A) :
  fold_left (fun sum c => sum + g c) l 0
  = fold_left (fun sum c => sum + g c) (List.filter p l) 0
    + fold_left (fun sum c => sum + g c) (List.filter (fun c => negb (p c)) l) 0.
Proof.
  induction l as [|c l IH]; simpl; [lra|].
  rewrite sum_shift, IH. destruct (p c); simpl;
    rewrite (sum_shift g _ (0 + g c)); lra.
Qed.

Lemma sum_scale (k : R) (g : A -> R) (l : list A) :
  fold_left (fun sum c => sum + k * g c) l 0
  = k * fold_left (fun sum c => sum + g c) l 0.
Proof.
  induction l as [|c l IH]; simpl; [lra|].
  rewrite (sum_shift (fun c => k * g c) l (0 + k * g c)), IH,
    (sum_shift g l (0 + g c)). lra.
Qed.

Lemma sum_const (k : R) (l : list A) :
  fold_left (fun sum (_ : A) => sum + k) l 0 = INR (length l) * k.
Proof.
  induction l as [|c l IH]; [simpl; lra|].
  cbn [fold_left]. rewrite (sum_shift (fun _ => k)), IH.
  change (length (c :: l)) with (S (length l)). rewrite S_INR. lra.
Qed.



Lemma filter_lengths (p : A -> bool) (l : list A) :
  length l
  = (length (List.filter p l) + length (List.filter (fun c => negb (p c)) l))%nat.
Proof. induction l as [|c l IH]; simpl; [done|]. destruct (p c); simpl; lia. Qed.

End sums.
End Sums.

(** ** Rounding a lambda *)

Module RoundLambda.
Import Correlation Stating.

Lemma scan_cons lambda l ls c :
  scan lambda (l :: ls) c =
  if JS.ltb (Rabs (lambda - l)) (Rabs (lambda - c))
  then scan lambda ls l else scan lambda ls c.
Proof. unfold scan. simpl. by destruct (JS.ltb _ _). Qed.

Lemma scan_distance lambda ls c :
  snd (scan lambda ls c) = Rabs (lambda - fst (scan lambda ls c)).
Proof.
  revert c. induction ls as [|l ls IH]; intros c; [done|].
  rewrite scan_cons. destruct (JS.ltb _ _); apply IH.
Qed.

(** The result is the seed, or a candidate strictly closer than the seed. *)
Lemma scan_origin lambda ls c :
  fst (scan lambda ls c) = c
  \/ (In (fst (scan lambda ls c)) ls
      /\ Rabs (lambda - fst (scan lambda ls c)) < Rabs (lambda - c)).
Proof.
  revert c. induction ls as [|l ls IH]; intros c; [by left|].
  rewrite scan_cons. destruct (JS.ltb _ _) eqn:E.
  - apply JSFacts.ltb_spec in E. right.
    destruct (IH l) as [-> | [Hin Hlt]]; [by split; [left|]|].
    split; [by right | lra].
  - destruct (IH c) as [-> | [Hin Hlt]]; [by left|].
    right. by split; [right|].
Qed.

Lemma scan_closest lambda ls c :
  let r := fst (scan lambda ls c) in
  Rabs (lambda - r) <= Rabs (lambda - c)
  /\ forall l, In l ls -> Rabs (lambda - r) <= Rabs (lambda - l).
Proof.
  revert c. induction ls as [|l ls IH]; intros c; simpl.
  - split; [lra | tauto].
  - rewrite scan_cons. destruct (JS.ltb _ _) eqn:E.
    + apply JSFacts.ltb_spec in E. destruct (IH l) as [H1 H2]. simpl in *.
      split; [lra|]. intros l' [<- | Hin]; [lra | by apply H2].
    + apply JSFacts.ltb_false in E. destruct (IH c) as [H1 H2]. simpl in *.
      split; [lra|]. intros l' [<- | Hin]; [lra | by apply H2].
Qed.

(** On an ascending list, a candidate at the same distance as the result
    is not below it, unless the result is the seed. *)
Lemma scan_ties lambda ls c :
  Sorted Rlt ls ->
  let r := fst (scan lambda ls c) in
  forall l, In l ls -> Rabs (lambda - l) = Rabs (lambda - r) -> r = c \/ r <= l.
Proof.
  revert c. induction ls as [|h ls IH]; intros c Hs; simpl; [tauto|].
  apply Sorted_StronglySorted in Hs; [|intros ???; lra].
  apply StronglySorted_inv in Hs as [Hs Hh].
  apply StronglySorted_Sorted in Hs. rewrite List.Forall_forall in Hh.
  rewrite scan_cons. destruct (JS.ltb _ _) eqn:E.
  - apply JSFacts.ltb_spec in E. intros l [<- | Hin] Heq.
    + destruct (scan_origin lambda ls h) as [-> | [_ Hlt]]; [right; lra | lra].
    + destruct (IH h Hs l Hin Heq) as [-> | Hle]; [|by right].
      right. apply Hh in Hin. lra.
  - apply JSFacts.ltb_false in E. intros l [<- | Hin] Heq.
    + destruct (scan_origin lambda ls c) as [-> | [_ Hlt]]; [by left | lra].
    + by apply (IH c Hs l Hin Heq).
Qed.

Lemma commonLambdas_sorted : Sorted Rlt commonLambdas.
Proof. unfold commonLambdas. repeat constructor; lra. Qed.

Lemma roundLambda_scan lambda : roundLambda lambda = fst (scan lambda commonLambdas 1).
Proof. reflexivity. Qed.

Ltac rabs := unfold Rabs in *; repeat destruct Rcase_abs; lra.

(** C8, as stated, fails at 0.75: the two members 0.5 and 1 are at the same
    distance 0.25 and the larger one, 1, is returned. *)
Lemma roundLambda_tie_counterexample :
  roundLambda 0.75 = 1
  /\ In 0.5 commonLambdas
  /\ Rabs (0.75 - 0.5) = Rabs (0.75 - roundLambda 0.75)
  /\ 0.5 < roundLambda 0.75.
Proof.
  assert (E : roundLambda 0.75 = 1).
  { rewrite roundLambda_scan.
    destruct (scan_origin 0.75 commonLambdas 1) as [-> | [Hin Hlt]]; [done|].
    exfalso. revert Hin Hlt. generalize (fst (scan 0.75 commonLambdas 1)).
    intros r Hin. unfold commonLambdas in Hin. simpl in Hin.
    intuition subst; rabs. }
  rewrite E. repeat split.
  - unfold commonLambdas. simpl. tauto.
  - rabs.
  - lra.
Qed.

(** C8, amended: [roundLambda] returns a member of the fixed set at minimal
    absolute difference from lambda; of two members at exactly the same
    distance it returns the smaller one, except at lambda = 0.75, where it
    returns 1 rather than 0.5. *)
Theorem roundLambda_nearest (lambda : R) :
  In (roundLambda lambda) commonLambdas
  /\ (forall l, In l commonLambdas ->
       Rabs (lambda - roundLambda lambda) <= Rabs (lambda - l))
  /\ (forall l, In l commonLambdas ->
       Rabs (lambda - l) = Rabs (lambda - roundLambda lambda) ->
       roundLambda lambda <= l
       \/ (lambda = 0.75 /\ roundLambda lambda = 1 /\ l = 0.5)).
Proof.
  rewrite roundLambda_scan.
  pose proof (scan_origin lambda commonLambdas 1) as Ho.
  pose proof (scan_closest lambda commonLambdas 1) as [_ Hc].
  pose proof (scan_ties lambda commonLambdas 1 commonLambdas_sorted) as Ht.
  simpl in Hc, Ht. revert Ho Hc Ht.
  generalize (fst (scan lambda commonLambdas 1)). intros r Ho Hc Ht.
  split; [|split].
  - destruct Ho as [-> | [Hin _]]; [|done].
    unfold commonLambdas. simpl. tauto.
  - exact Hc.
  - intros l Hin Heq. destruct (Ht l Hin Heq) as [-> | Hle]; [|by left].
    assert (H5 : Rabs (lambda - 1) <= Rabs (lambda - 0.5)).
    { apply Hc. unfold commonLambdas. simpl. tauto. }
    clear Ho Hc Ht. unfold commonLambdas in Hin. simpl in Hin.
    destruct Hin as [<-|[<-|[<-|[<-|[<-|[<-|[<-|[<-|[]]]]]]]]];
      try (left; lra); try (exfalso; rabs).
    right. repeat split; rabs.
Qed.

(** C8, amended, at lambda = 0.3 and the member 0.5. *)
Lemma roundLambda_nearest_witness :
  In 0.5 commonLambdas
  /\ Rabs (0.3 - roundLambda 0.3) <= Rabs (0.3 - 0.5).
Proof.
  assert (Hin : In 0.5 commonLambdas) by (unfold commonLambdas; simpl; tauto).
  split; [exact Hin|].
  exact (proj1 (proj2 (roundLambda_nearest 0.3)) 0.5 Hin).
Defined.

End RoundLambda.

(** ** The power transform *)

Module PowerTransform.
Import Correlation.

Ltac eqb_false :=
  repeat match goal with
    | |- context [JS.eqb ?a ?b] =>
        let E := fresh "E" in
        destruct (JS.eqb a b) eqn:E;
        [apply JSFacts.eqb_spec in E; first [exfalso; lra | idtac] |
         apply JSFacts.eqb_false in E]
    end.

Lemma applyPowerTransformation_pointwise (values : list R) (lambda : R) :
  applyPowerTransformation values lambda =
  flat_map (fun x => applyPowerTransformation [x] lambda) values.
Proof.
  unfold applyPowerTransformation.
  destruct (List.find _ _); induction values as [|v vs IH]; simpl;
    try reflexivity; rewrite app_nil_r in *; by f_equal.
Qed.

Lemma boxCox_0 (x : R) : boxCox 0 x = ln x.
Proof.
  unfold boxCox. destruct (JS.ltb _ _) eqn:E; [done|].
  apply JSFacts.ltb_false in E. rewrite Rabs_R0 in E. lra.
Qed.

Lemma Rpower_2 (x : R) : 0 < x -> Rpower x 2 = x * x.
Proof.
  intros Hx. replace 2 with (INR 2) by (simpl; lra).
  rewrite Rpower_pow by done. simpl. lra.
Qed.

(** C3, as stated, fails on the table entries: with lambda = 1 the
    non-positive -3 is kept rather than sent to 0, and with lambda = 2 the
    positive 3 goes to 9 while its Box-Cox value is 4. *)
Lemma applyPowerTransformation_counterexample :
  (-3 <= 0 /\ applyPowerTransformation [-3] 1 = [-3]
   /\ applyPowerTransformation [-3] 1 <> [0])
  /\ (0 < 3 /\ applyPowerTransformation [3] 2 = [9]
      /\ applyPowerTransformation [3] 2 <> [boxCox 2 3]).
Proof.
  assert (E1 : applyPowerTransformation [-3] 1 = [-3]).
  { unfold applyPowerTransformation. simpl. eqb_false; try lra. reflexivity. }
  assert (E2 : applyPowerTransformation [3] 2 = [9]).
  { unfold applyPowerTransformation. simpl. eqb_false; try lra.
    simpl. f_equal. lra. }
  assert (E3 : boxCox 2 3 = 4).
  { unfold boxCox. destruct (JS.ltb _ _) eqn:E.
    - apply JSFacts.ltb_spec in E. exfalso. RoundLambda.rabs.
    - rewrite Rpower_2 by lra. lra. }
  rewrite E1, E2, E3. repeat split; try lra; intros [=]; lra.
Qed.

Ltac on_table :=
  unfold applyPowerTransformation; simpl; eqb_false; try lra; reflexivity.

(** C3, amended: the transform acts on each value separately.  For every
    lambda other than -2, -1, -0.5, 0.5, 1, 2 and 3 it maps a non-positive x
    to 0 and a positive x to its Box-Cox value, the natural log when
    |lambda| < 1e-10.  For those seven values the entry of the table is
    applied: 1/x^2, 1/x, 1/sqrt x and sqrt x with the values they are not
    defined on sent to 0, and x, x^2, x^3 for every x. *)
Theorem applyPowerTransformation_cases :
  (forall values lambda,
     applyPowerTransformation values lambda =
     flat_map (fun x => applyPowerTransformation [x] lambda) values)
  /\ (forall lambda x,
       ~ In lambda [-2; -1; -0.5; 0.5; 1; 2; 3] ->
       applyPowerTransformation [x] lambda =
       [if JS.leb x 0 then 0
        else if JS.ltb (Rabs lambda) 1e-10 then ln x
        else (Rpower x lambda - 1) / lambda])
  /\ (forall x,
       applyPowerTransformation [x] (-2) = [if JS.leb x 0 then 0 else 1 / (x * x)]
       /\ applyPowerTransformation [x] (-1) = [if JS.leb x 0 then 0 else 1 / x]
       /\ applyPowerTransformation [x] (-0.5) = [if JS.leb x 0 then 0 else 1 / sqrt x]
       /\ applyPowerTransformation [x] 0.5 = [if JS.ltb x 0 then 0 else sqrt x]
       /\ applyPowerTransformation [x] 1 = [x]
       /\ applyPowerTransformation [x] 2 = [x * x]
       /\ applyPowerTransformation [x] 3 = [x * x * x]).
Proof.
  split; [exact applyPowerTransformation_pointwise|]. split.
  - intros lambda x Hout. simpl in Hout.
    destruct (Req_dec_T lambda 0) as [-> | H0].
    + replace (applyPowerTransformation [x] 0)
        with [if JS.leb x 0 then 0 else ln x] by (symmetry; on_table).
      destruct (JS.ltb (Rabs 0) 1e-10) eqn:E; [done|].
      apply JSFacts.ltb_false in E. rewrite Rabs_R0 in E. lra.
    + unfold applyPowerTransformation. simpl.
      repeat match goal with
        | |- context [JS.eqb ?a lambda] =>
            let E := fresh "E" in
            destruct (JS.eqb a lambda) eqn:E;
            [apply JSFacts.eqb_spec in E; exfalso; first [lra | tauto] | clear E]
        end.
      reflexivity.
  - intros x. repeat split; on_table.
Qed.

(** C3, amended, at lambda = 1.5 and x = 4. *)
Lemma applyPowerTransformation_cases_witness :
  ~ In 1.5 [-2; -1; -0.5; 0.5; 1; 2; 3]
  /\ applyPowerTransformation [4] 1.5 =
     [if JS.leb 4 0 then 0
      else if JS.ltb (Rabs 1.5) 1e-10 then ln 4
      else (Rpower 4 1.5 - 1) / 1.5].
Proof.
  assert (Hout : ~ In 1.5 [-2; -1; -0.5; 0.5; 1; 2; 3]).
  { simpl. intros H. repeat destruct H as [H|H]; lra. }
  split; [exact Hout|].
  exact (proj1 (proj2 applyPowerTransformation_cases) 1.5 4 Hout).
Defined.

End PowerTransform.


(** ** Extraction of the numeric series *)

Module Extraction.
Import Sheet Correlation Stating.

Lemma parseFloat_0 : parseFloat "0" = Some 0.
Proof.
  unfold parseFloat.
  change (parseDecimal "0") with (Some (0%Z, 0%Z)).
  simpl. unfold decimal_value. simpl. f_equal. lra.
Qed.
Lemma numericColumn_cons (row : list cell) (rows : list (list cell)) (i : nat) :
  numericColumn (row :: rows) i = contribution (at_col row i) ++ numericColumn rows i.
Proof.
  change (numericColumn (row :: rows) i)
    with (match parseCell "0" (at_col row i) with
          | Some y => y :: numericColumn rows i
          | None => numericColumn rows i
          end).
  generalize (numericColumn rows i). intros tl.
  unfold contribution, parseCell.
  destruct (at_col row i) as [r|s|].
  - reflexivity.
  - destruct (bool_decide (s = EmptyString)); cbv beta iota.
    + rewrite parseFloat_0. reflexivity.
    + destruct (parseFloat s); reflexivity.
  - rewrite parseFloat_0. reflexivity.
Qed.

(** C4, as stated, fails: a hole and an empty text each contribute a 0 to
    the series, which is [1; 0; 0] here and not [1]. *)
Lemma extractVariableData_counterexample :
  numericColumn (data sample) 0 = [1; 0; 0]
  /\ match extractVariableData sample ["a"%string] with
     | Done (newNumericData, _) => newNumericData !! "a"%string = Some [1; 0; 0]
     | Failed _ => False
     end.
Proof.
  assert (E : numericColumn (data sample) 0 = [1; 0; 0]).
  { unfold sample. cbn [data]. rewrite !numericColumn_cons. reflexivity. }
  split; [exact E|].
  unfold extractVariableData, extractVariables.
  change (JS.indexOf (headers sample) "a") with (Some 0%nat).
  cbv beta iota. rewrite E. cbn [length Nat.eqb].
  apply lookup_insert_eq.
Qed.

(** The loop of [extractVariableData], from any accumulators. *)
Lemma extractVariables_spec (excel : ExcelData) (vars : list string) :
  forall d s,
    match extractVariables excel vars d s with
    | Done (d', _) =>
        (forall v, In v vars ->
           exists i, JS.indexOf (headers excel) v = Some i
                     /\ d' !! v = Some (numericColumn (data excel) i)
                     /\ numericColumn (data excel) i <> [])
        /\ (forall v, ~ In v vars -> d' !! v = d !! v)
    | Failed message =>
        exists v, In v vars
          /\ ((JS.indexOf (headers excel) v = None
               /\ message = quoted "Variable '" v "' not found in data.")
              \/ (exists i, JS.indexOf (headers excel) v = Some i
                            /\ numericColumn (data excel) i = []
                            /\ message = quoted "Variable '" v
                                                "' contains no numeric data."))
    end.
Proof.
  induction vars as [|v vars IH]; intros d s; simpl.
  - split; [tauto | done].
  - destruct (JS.indexOf (headers excel) v) as [i|] eqn:Ei.
    + destruct (length (numericColumn (data excel) i) =? 0)%nat eqn:El.
      * exists v. split; [by left|]. right. exists i.
        apply Nat.eqb_eq in El. by destruct (numericColumn (data excel) i).
      * specialize (IH (<[v := numericColumn (data excel) i]> d)
                       (<[v := calculateBasicStats (numericColumn (data excel) i)]> s)).
        destruct (extractVariables _ _ _ _) as [m | [d' s']].
        -- destruct IH as (v' & Hin & Hv'). exists v'. split; [by right | done].
        -- destruct IH as [IH1 IH2]. split.
           ++ intros v' [<- | Hin]; [|by apply IH1].
              destruct (decide (v ∈ vars)) as [Hv | Hv].
              ** apply IH1. by apply list_elem_of_In.
              ** exists i. split; [done|].
                 rewrite IH2 by (by rewrite <- list_elem_of_In).
                 rewrite lookup_insert_eq. split; [done|].
                 apply Nat.eqb_neq in El. by destruct (numericColumn (data excel) i).
           ++ intros v' Hnin. rewrite IH2 by tauto.
              apply lookup_insert_ne. intros ->. tauto.
    + exists v. split; [by left|]. by left.
Qed.

(** C4, amended: the series of a selected column is read row by row, in
    order.  A numeric cell contributes its value; a missing or empty cell is
    read as the text '0' and contributes 0; any other text contributes the
    number [parseFloat] reads from it and is dropped when there is none.
    When the analysis goes on, every selected column was found and gave a
    non-empty series; when it fails, the message names a selected column
    that was not found or gave no value. *)
Theorem extractVariableData_series (excel : ExcelData) (selected : list string) :
  (forall row rows i,
     numericColumn (row :: rows) i
     = contribution (at_col row i) ++ numericColumn rows i)
  /\ match extractVariableData excel selected with
     | Done (newNumericData, _) =>
         forall v, In v selected ->
           exists i, JS.indexOf (headers excel) v = Some i
                     /\ newNumericData !! v = Some (numericColumn (data excel) i)
                     /\ numericColumn (data excel) i <> []
     | Failed message =>
         exists v, In v selected
           /\ ((JS.indexOf (headers excel) v = None
                /\ message = quoted "Variable '" v "' not found in data.")
               \/ (exists i, JS.indexOf (headers excel) v = Some i
                             /\ numericColumn (data excel) i = []
                             /\ message = quoted "Variable '" v
                                                 "' contains no numeric data."))
     end.
Proof.
  split; [exact numericColumn_cons|].
  pose proof (extractVariables_spec excel selected ∅ ∅) as Hs.
  unfold extractVariableData.
  destruct (extractVariables excel selected ∅ ∅) as [m|[d s]]; [done|].
  by destruct Hs.
Qed.

(** C4, amended, on the sheet [sample]. *)
Lemma extractVariableData_series_witness :
  In "a"%string ["a"%string]
  /\ exists newNumericData stats,
       extractVariableData sample ["a"%string] = Done (newNumericData, stats)
       /\ exists i, JS.indexOf (headers sample) "a" = Some i
                    /\ newNumericData !! "a"%string
                       = Some (numericColumn (data sample) i).
Proof.
  assert (Hin : In "a"%string ["a"%string]) by (by left).
  split; [exact Hin|].
  eexists _, _. split; [reflexivity|].
  destruct (proj2 (extractVariableData_series sample ["a"%string]) "a"%string Hin)
    as (i & Hi & Hd & _).
  exists i. split; [exact Hi | exact Hd].
Defined.

End Extraction.

(** ** The correlation matrix *)

Module Matrix.
Import Sheet Correlation Stating Sums.

Lemma pearson_fold_swap (xm ym : R) (x y : list R) :
  forall a b c,
    fold_left
      (fun '(numerator, xss, yss) '(xi, yi) =>
         (numerator + (xi - xm) * (yi - ym),
          xss + (xi - xm) * (xi - xm), yss + (yi - ym) * (yi - ym)))
      (zip y x) (a, c, b)
    = (let '(a', b', c') :=
         fold_left
           (fun '(numerator, xss, yss) '(xi, yi) =>
              (numerator + (xi - ym) * (yi - xm),
               xss + (xi - ym) * (xi - ym), yss + (yi - xm) * (yi - xm)))
           (zip x y) (a, b, c) in
       (a', c', b')).
Proof.
  revert y. induction x as [|xi x IH]; intros [|yi y] a b c; try reflexivity.
  simpl. rewrite <- IH. do 3 f_equal. lra.
Qed.

Lemma calculatePearsonCorrelation_sym (x y : list R) :
  calculatePearsonCorrelation x y = calculatePearsonCorrelation y x.
Proof.
  unfold calculatePearsonCorrelation.
  rewrite (Nat.min_comm (length y) (length x)).
  destruct (Nat.min (length x) (length y) =? 0)%nat; [done|].
  set (xm := JS.sum x / _). set (ym := JS.sum y / _).
  pose proof (pearson_fold_swap ym xm x y 0 0 0) as E.
  cbv zeta. rewrite E.
  destruct (fold_left _ (zip x y) _) as [[a b] c].
  rewrite orb_comm, (Rmult_comm c b). reflexivity.
Qed.

Lemma correlationCell_sym (t : gmap string (list R)) (v1 v2 : string) :
  correlationCell t v1 v2 = correlationCell t v2 v1.
Proof.
  unfold correlationCell.
  destruct (decide (v1 = v2)) as [-> | Hne].
  - by rewrite decide_True.
  - rewrite decide_False by congruence.
    rewrite (calculatePearsonCorrelation_sym (default [] (t !! v1))).
    by rewrite Nat.min_comm.
Qed.

Lemma correlationCell_diag (t : gmap string (list R)) (v : string) :
  correlationCell t v v = {| coefficient := 1; pValue := 0; isSignificant := true |}.
Proof. unfold correlationCell. by rewrite decide_True. Qed.

Lemma correlationMatrix_lookup selected t (i j : nat) (vi vj : string) :
  selected !! i = Some vi -> selected !! j = Some vj ->
  (correlationMatrix selected t !! i) ≫= (fun row => row !! j)
  = Some (correlationCell t vi vj).
Proof.
  intros Hi Hj. unfold correlationMatrix.
  rewrite list_lookup_fmap, Hi. simpl.
  by rewrite list_lookup_fmap, Hj.
Qed.

Lemma handleRun_Done excel selected m :
  handleRun excel selected = Done m ->
  (2 <= length selected)%nat
  /\ exists t, m = correlationMatrix selected t.
Proof.
  unfold handleRun. destruct excel as [excel|]; [|done].
  destruct (length selected <? 2)%nat eqn:El; [done|].
  apply Nat.ltb_ge in El.
  destruct (extractVariableData excel selected) as [?|[d s]]; [done|].
  intros [= <-]. split; [done|]. by eexists.
Qed.

(** C6: when the correlation analysis produces a matrix (which needs at
    least two selected variables), the matrix has one row per selected
    variable, the cells (i, j) and (j, i) have the same coefficient, p-value
    and significance flag, and every diagonal cell is exactly
    {coefficient = 1, p-value = 0, significant = true}. *)
Theorem correlationMatrix_symmetric excel selected m :
  handleRun excel selected = Done m ->
  length m = length selected
  /\ forall i j vi vj,
       selected !! i = Some vi -> selected !! j = Some vj ->
       exists cij cji,
         (m !! i) ≫= (fun row => row !! j) = Some cij
         /\ (m !! j) ≫= (fun row => row !! i) = Some cji
         /\ coefficient cij = coefficient cji
         /\ pValue cij = pValue cji
         /\ isSignificant cij = isSignificant cji
         /\ (i = j ->
             cij = {| coefficient := 1; pValue := 0; isSignificant := true |}).
Proof.
  intros Hrun. apply handleRun_Done in Hrun as [_ [t ->]]. split.
  - unfold correlationMatrix. by rewrite length_map.
  - intros i j vi vj Hi Hj.
    exists (correlationCell t vi vj), (correlationCell t vj vi).
    split; [by apply correlationMatrix_lookup|].
    split; [by apply correlationMatrix_lookup|].
    repeat split; try (by rewrite correlationCell_sym).
    intros ->. assert (vi = vj) as -> by congruence.
    apply correlationCell_diag.
Qed.

(** C6 on the sheet [two]: the analysis produces a matrix. *)
Lemma correlationMatrix_symmetric_witness :
  exists m,
    handleRun (Some two) ["a"%string; "b"%string] = Done m
    /\ length m = 2%nat.
Proof.
  eexists. split; [reflexivity|].
  refine (proj1 (correlationMatrix_symmetric
                   (Some two) ["a"%string; "b"%string] _ _)).
  reflexivity.
Defined.




End Matrix.

(** ** Exponential smoothing *)

Module Smoothing.
Import Forecast.

Lemma smoothingLoop_length data alpha steps : forall i result,
  length (smoothingLoop data alpha steps i result) = (length result + steps)%nat.
Proof.
  induction steps as [|steps IH]; intros i result; simpl; [lia|].
  rewrite IH, length_app. simpl. lia.
Qed.

Lemma smoothingLoop_prefix data alpha steps : forall i result k,
  (k < length result)%nat ->
  nth k (smoothingLoop data alpha steps i result) 0 = nth k result 0.
Proof.
  induction steps as [|steps IH]; intros i result k Hk; simpl; [done|].
  rewrite IH by (rewrite length_app; simpl; lia).
  by rewrite app_nth1.
Qed.

Lemma smoothingLoop_step data alpha steps : forall i result k,
  length result = i -> (1 <= i)%nat -> (i <= k < i + steps)%nat ->
  nth k (smoothingLoop data alpha steps i result) 0
  = alpha * nth (k - 1) data 0
    + (1 - alpha) * nth (k - 1) (smoothingLoop data alpha steps i result) 0.
Proof.
  induction steps as [|steps IH]; intros i result k Hlen Hi Hk; [lia|].
  simpl. destruct (decide (k = i)) as [-> | Hne].
  - rewrite !smoothingLoop_prefix by (rewrite length_app; simpl; lia).
    rewrite app_nth2 by lia. rewrite Hlen, Nat.sub_diag. simpl.
    by rewrite (app_nth1 result) by lia.
  - apply IH; [rewrite length_app; simpl; lia | lia | lia].
Qed.

Lemma exponentialSmoothing_cons first rest alpha :
  exponentialSmoothing (first :: rest) alpha
  = let data := first :: rest in
    let result := smoothingLoop data alpha (length rest) 1 [first] in
    result ++ [alpha * nth (length rest) data 0
               + (1 - alpha) * nth (length rest) result 0].
Proof.
  unfold exponentialSmoothing. cbv zeta. rewrite smoothingLoop_length.
  cbn [length].
  replace (S (length rest) - 1)%nat with (length rest) by lia.
  by replace (1 + length rest - 1)%nat with (length rest) by lia.
Qed.

(** C7: for a non-empty observed sequence and alpha in [0, 1], with
    fitted the smoothed sequence without its last element and forecast that
    last element: fitted[0] = observed[0]; fitted[i] = alpha * observed[i-1]
    + (1 - alpha) * fitted[i-1] for i >= 1; forecast = alpha *
    observed[last] + (1 - alpha) * fitted[last]; with alpha = 0 every
    fitted[i] is observed[0], and with alpha = 1 every fitted[i], i >= 1, is
    observed[i-1]. *)
Theorem exponentialSmoothing_recurrence (observed : list R) (alpha : R) :
  observed <> [] -> 0 <= alpha <= 1 ->
  let smoothed := exponentialSmoothing observed alpha in
  let fitted := take (length smoothed - 1) smoothed in
  let forecast := nth (length smoothed - 1) smoothed 0 in
  length fitted = length observed
  /\ nth 0 fitted 0 = nth 0 observed 0
  /\ (forall i, (1 <= i < length observed)%nat ->
        nth i fitted 0
        = alpha * nth (i - 1) observed 0 + (1 - alpha) * nth (i - 1) fitted 0)
  /\ forecast
     = alpha * nth (length observed - 1) observed 0
       + (1 - alpha) * nth (length observed - 1) fitted 0
  /\ (alpha = 0 ->
      forall i, (i < length observed)%nat -> nth i fitted 0 = nth 0 observed 0)
  /\ (alpha = 1 ->
      forall i, (1 <= i < length observed)%nat ->
        nth i fitted 0 = nth (i - 1) observed 0).
Proof.
  intros Hne _. destruct observed as [|first rest]; [done|]. clear Hne.
  intros smoothed fitted forecast. subst smoothed fitted forecast.
  rewrite exponentialSmoothing_cons. cbv zeta.
  set (data := first :: rest).
  set (result := smoothingLoop data alpha (length rest) 1 [first]).
  assert (Hlen : length result = S (length rest)).
  { unfold result. rewrite smoothingLoop_length. simpl. lia. }
  rewrite length_app, Hlen. cbn [length].
  replace (S (length rest) + 1 - 1)%nat with (length result) by lia.
  rewrite take_app_length.
  rewrite app_nth2 by lia. rewrite Hlen, Nat.sub_diag.
  replace (S (length rest) - 1)%nat with (length rest) by lia.
  assert (H0 : nth 0 result 0 = first).
  { unfold result. rewrite smoothingLoop_prefix by (simpl; lia). done. }
  assert (Hstep : forall i, (1 <= i < S (length rest))%nat ->
            nth i result 0
            = alpha * nth (i - 1) data 0 + (1 - alpha) * nth (i - 1) result 0).
  { intros i Hi. apply smoothingLoop_step; simpl; lia. }
  assert (Hd : length data = S (length rest)) by done.
  split; [done|]. split; [done|]. split; [exact Hstep|].
  split.
  { replace (length data - 1)%nat with (length rest) by (simpl; lia).
    reflexivity. }
  split.
  - intros -> i Hi. induction i as [|i IH]; [done|].
    rewrite Hstep by lia. replace (S i - 1)%nat with i by lia.
    rewrite IH by lia. simpl. lra.
  - intros -> i Hi. rewrite Hstep by lia. lra.
Qed.

(** C7 on the observations 80, 60, 70 with alpha = 0.4. *)
Lemma exponentialSmoothing_recurrence_witness :
  let smoothed := exponentialSmoothing [80; 60; 70] 0.4 in
  length (take (length smoothed - 1) smoothed) = 3%nat
  /\ nth 1 (take (length smoothed - 1) smoothed) 0
     = 0.4 * 80 + (1 - 0.4) * nth 0 (take (length smoothed - 1) smoothed) 0.
Proof.
  assert (Hne : [80; 60; 70] <> ([] : list R)) by discriminate.
  assert (Ha : 0 <= 0.4 <= 1) by lra.
  destruct (exponentialSmoothing_recurrence [80; 60; 70] 0.4 Hne Ha)
    as (H1 & _ & H3 & _).
  split; [exact H1|].
  apply (H3 1%nat). simpl. lia.
Defined.

End Smoothing.

(** ** Weight sensitivity *)

Module Reallocation.
Import Sensitivity Stating Sums.

Lemma or_else_0 (v : R) : JS.or_else (Some v) 0 = v.
Proof.
  unfold JS.or_else. destruct (JS.eqb v 0) eqn:E; [|done].
  by apply JSFacts.eqb_spec in E.
Qed.

Section inserts.
Context (f : CategoryWeight -> R).

Lemma inserts_other (l : list CategoryWeight) : forall (m : gmap string R) k,
  ~ In k (map category l) ->
  fold_left (fun m c => <[category c := f c]> m) l m !! k = m !! k.
Proof.
  induction l as [|c l IH]; intros m k Hk; simpl; [done|].
  simpl in Hk. rewrite IH by tauto. apply lookup_insert_ne. tauto.
Qed.

Lemma inserts_member (l : list CategoryWeight) : forall (m : gmap string R) c,
  List.NoDup (map category l) -> In c l ->
  fold_left (fun m c => <[category c := f c]> m) l m !! category c = Some (f c).
Proof.
  induction l as [|c' l IH]; intros m c Hnd Hin; simpl; [done|].
  simpl in Hnd. apply List.NoDup_cons_iff in Hnd as [Hc' Hnd].
  destruct Hin as [-> | Hin]; [|by apply IH].
  rewrite inserts_other by done. apply lookup_insert_eq.
Qed.
End inserts.

Lemma filter_unique (t : string) (l : list CategoryWeight) :
  List.NoDup (map category l) -> In t (map category l) ->
  exists c, In c l /\ category c = t
    /\ List.filter (fun c => bool_decide (category c = t)) l = [c].
Proof.
  induction l as [|c l IH]; intros Hnd Hin; simpl in *; [done|].
  apply List.NoDup_cons_iff in Hnd as [Hc Hnd].
  destruct Hin as [Ht | Hin].
  - exists c. split; [by left|]. split; [done|].
    rewrite bool_decide_eq_true_2 by done. f_equal.
    clear IH Hnd. induction l as [|c' l IH]; [done|]. simpl in *.
    rewrite bool_decide_eq_false_2 by (intros E; apply Hc; left; congruence).
    apply IH. tauto.
  - destruct (IH Hnd Hin) as (c0 & Hin0 & Ht0 & Hf).
    exists c0. split; [by right|]. split; [done|].
    rewrite bool_decide_eq_false_2; [done|].
    intros E. apply Hc. rewrite E, <- Ht0. by apply in_map.
Qed.

Lemma NoDup_names_filter (p : CategoryWeight -> bool) (l : list CategoryWeight) :
  List.NoDup (map category l) -> List.NoDup (map category (List.filter p l)).
Proof.
  induction l as [|c l IH]; intros Hnd; simpl in *; [done|].
  apply List.NoDup_cons_iff in Hnd as [Hc Hnd].
  destruct (p c); simpl; [|by apply IH].
  apply List.NoDup_cons; [|by apply IH].
  intros Hin. apply Hc. apply in_map_iff in Hin as (c' & E & Hin).
  apply filter_In in Hin as [Hin _]. rewrite <- E. by apply in_map.
Qed.

Lemma saveWeights_lookup (l : list CategoryWeight) (c : CategoryWeight) :
  List.NoDup (map category l) -> In c l ->
  saveWeights l !! category c = Some (weight c).
Proof. intros. by apply (inserts_member weight). Qed.

Section reallocate.
Context (goal : Goal) (t : string) (sel : list CategoryWeight) (target : CategoryWeight).
Hypothesis Hnd : List.NoDup (map category sel).
Hypothesis Hin : In target sel.
Hypothesis Ht : category target = t.
Hypothesis Hlen : (2 <= length sel)%nat.

Lemma reallocate_unfold :
  reallocate goal t sel (saveWeights sel)
  = fold_left
      (fun m c =>
         <[category c :=
             (1.0 - bestWeight goal (weight target))
             * ratio (saveWeights sel) (otherCategories t sel) c]> m)
      (otherCategories t sel)
      (<[t := bestWeight goal (weight target)]> (saveWeights sel)).
Proof.
  unfold reallocate.
  replace (weightOr0 (saveWeights sel) t) with (weight target); [reflexivity|].
  unfold weightOr0. rewrite <- Ht, saveWeights_lookup by done.
  by rewrite or_else_0.
Qed.

Lemma reallocate_target :
  reallocate goal t sel (saveWeights sel) !! t
  = Some (bestWeight goal (weight target)).
Proof.
  rewrite reallocate_unfold, inserts_other; [apply lookup_insert_eq|].
  intros Hm. apply in_map_iff in Hm as (c & E & Hc).
  apply filter_In in Hc as [_ Hc].
  by rewrite bool_decide_eq_true_2 in Hc.
Qed.

Lemma reallocate_other (c : CategoryWeight) :
  In c (otherCategories t sel) ->
  reallocate goal t sel (saveWeights sel) !! category c
  = Some ((1.0 - bestWeight goal (weight target))
          * ratio (saveWeights sel) (otherCategories t sel) c).
Proof.
  intros Hc. rewrite reallocate_unfold.
  apply (inserts_member
           (fun c => (1.0 - bestWeight goal (weight target))
                     * ratio (saveWeights sel) (otherCategories t sel) c));
    [|done].
  by apply NoDup_names_filter.
Qed.

Lemma others_nonempty : (1 <= length (otherCategories t sel))%nat.
Proof.
  destruct (filter_unique t sel Hnd) as (c & _ & _ & Hf).
  { rewrite <- Ht. by apply in_map. }
  pose proof (filter_lengths (fun c => bool_decide (category c = t)) sel) as E.
  rewrite Hf in E. simpl in E. unfold otherCategories. lia.
Qed.

Lemma ratios_sum :
  fold_left
    (fun sum c => sum + ratio (saveWeights sel) (otherCategories t sel) c)
    (otherCategories t sel) 0 = 1.
Proof.
  unfold ratio.
  destruct (JS.gtb (totalOtherWeight (saveWeights sel) (otherCategories t sel)) 0)
    eqn:E.
  - apply JSFacts.ltb_spec in E.
    rewrite (sum_ext _ (fun c =>
               / totalOtherWeight (saveWeights sel) (otherCategories t sel)
               * default 0 (saveWeights sel !! category c)))
      by (intros; lra).
    rewrite sum_scale.
    fold (totalOtherWeight (saveWeights sel) (otherCategories t sel)).
    field. lra.
  - rewrite sum_const. pose proof others_nonempty as Hn.
    field. apply not_0_INR. lia.
Qed.

Lemma reallocate_total :
  fold_left
    (fun acc cat =>
       acc + weightOr0 (reallocate goal t sel (saveWeights sel)) (category cat))
    sel 0 = 1.
Proof.
  rewrite (sum_split (fun c => bool_decide (category c = t))).
  fold (otherCategories t sel).
  destruct (filter_unique t sel Hnd) as (c & _ & Hc & ->).
  { rewrite <- Ht. by apply in_map. }
  simpl. rewrite Hc. unfold weightOr0 at 1. rewrite reallocate_target, or_else_0.
  rewrite (sum_ext _ (fun c =>
             (1.0 - bestWeight goal (weight target))
             * ratio (saveWeights sel) (otherCategories t sel) c)).
  - rewrite sum_scale, ratios_sum. lra.
  - intros c' Hc'. unfold weightOr0. by rewrite reallocate_other, or_else_0.
Qed.
End reallocate.

(** C1, amended: with at least two selected categories of distinct names
    whose weights sum to 1 and a target among them, the new target weight is
    min(0.9, 2w) under maximize and max(0.1, w/2) under minimize, w being
    the current target weight, and the new weights of the selected
    categories sum to 1.  Under maximize the new target weight is at most
    0.9, and at least 0.1 exactly when w >= 0.05; under minimize it is at
    least 0.1, and at most 0.9 exactly when w <= 1.8. *)
Theorem runSensitivityAnalysis_weights (st : State) (target : CategoryWeight) :
  targetCategory st <> EmptyString ->
  (2 <= length (selectedCategories (categories st)))%nat ->
  List.NoDup (map category (selectedCategories (categories st))) ->
  In target (selectedCategories (categories st)) ->
  category target = targetCategory st ->
  totalWeight (categories st) = 1 ->
  exists w newTarget,
    newWeights (runSensitivityAnalysis st) = Some w
    /\ w !! targetCategory st = Some newTarget
    /\ newTarget = match optimizationGoal st with
                   | maximize => Rmin 0.9 (weight target * 2)
                   | minimize => Rmax 0.1 (weight target / 2)
                   end
    /\ newTotal w (categories st) = 1
    /\ Rabs (newTotal w (categories st) - 1) <= 1e-6
    /\ (optimizationGoal st = maximize ->
        newTarget <= 0.9 /\ (0.1 <= newTarget <-> 0.05 <= weight target))
    /\ (optimizationGoal st = minimize ->
        0.1 <= newTarget /\ (newTarget <= 0.9 <-> weight target <= 1.8)).
Proof.
  intros Hsel Hlen Hnd Hin Ht _.
  unfold runSensitivityAnalysis.
  rewrite bool_decide_eq_false_2 by done.
  destruct (length _ <? 2)%nat eqn:El; [apply Nat.ltb_lt in El; lia|].
  cbn [newWeights].
  eexists _, _. split; [reflexivity|].
  split; [by apply (reallocate_target _ _ _ target)|].
  split; [reflexivity|].
  assert (Et : newTotal
                 (reallocate (optimizationGoal st) (targetCategory st)
                    (selectedCategories (categories st))
                    (saveWeights (selectedCategories (categories st))))
                 (categories st) = 1).
  { unfold newTotal. by apply (reallocate_total _ _ _ target). }
  split; [exact Et|]. split; [rewrite Et; RoundLambda.rabs|].
  unfold bestWeight.
  split; intros ->; unfold Rmin, Rmax; destruct (Rle_dec _ _); lra.
Qed.

(** C1, amended, on the state [low]. *)
Lemma runSensitivityAnalysis_weights_witness :
  exists w newTarget,
    newWeights (runSensitivityAnalysis low) = Some w
    /\ w !! "a"%string = Some newTarget
    /\ newTotal w (categories low) = 1.
Proof.
  assert (H1 : targetCategory low <> EmptyString) by discriminate.
  assert (H2 : (2 <= length (selectedCategories (categories low)))%nat)
    by (simpl; lia).
  assert (H3 : List.NoDup (map category (selectedCategories (categories low)))).
  { simpl. repeat constructor; simpl; intuition discriminate. }
  assert (H4 : In {| category := "a"; weight := 0.02; selected := true |}
                  (selectedCategories (categories low))) by (by left).
  assert (H5 : totalWeight (categories low) = 1).
  { unfold totalWeight. simpl. lra. }
  destruct (runSensitivityAnalysis_weights low _ H1 H2 H3 H4 eq_refl H5)
    as (w & nt & Hw & Ht & _ & Hs & _).
  exists w, nt. repeat split; assumption.
Defined.

(** C1, as stated, fails: maximizing a target of weight 0.02 (the other
    category has 0.98) gives the target 0.04, outside [0.1, 0.9]. *)
Lemma runSensitivityAnalysis_counterexample :
  totalWeight (categories low) = 1
  /\ exists w,
       newWeights (runSensitivityAnalysis low) = Some w
       /\ w !! "a"%string = Some 0.04
       /\ ~ (0.1 <= 0.04 <= 0.9).
Proof.
  split; [unfold totalWeight; simpl; lra|].
  exists (reallocate maximize "a" (selectedCategories (categories low))
            (saveWeights (selectedCategories (categories low)))).
  split; [reflexivity|]. split; [|lra].
  assert (Hnd : List.NoDup (map category (selectedCategories (categories low)))).
  { simpl. repeat constructor; simpl; intuition discriminate. }
  rewrite (reallocate_target maximize "a" _
             {| category := "a"; weight := 0.02; selected := true |} Hnd);
    [|by left|done].
  f_equal. unfold bestWeight, Rmin. simpl. destruct (Rle_dec _ _); lra.
Qed.

End Reallocation.

(** ** Ranking *)

Module Ranked.
Import Sheet Ranking RankingInputs Sums.

(** *** The sort *)

Lemma place_perm {A} (p : A -> A -> bool) (x : A) (l : list A) :
  Permutation (JS.place p x l) (x :: l).
Proof.
  induction l as [|y l IH]; simpl; [done|].
  destruct (p x y); [|done]. rewrite IH. apply perm_swap.
Qed.

Lemma sort_perm {A} (p : A -> A -> bool) (l : list A) :
  Permutation (JS.sort p l) l.
Proof.
  unfold JS.sort. induction l as [|x l IH]; simpl; [done|].
  rewrite place_perm. by constructor.
Qed.

(** *** The table of scores *)

Section table.
Context (criterion : string) (scoreAt : nat -> option R).

Lemma scoreRows_notin (suppliers : list string) :
  forall i (table : gmap string (gmap string (option R))) s,
    ~ In s suppliers ->
    scoreRows criterion scoreAt i suppliers table !! s = table !! s.
Proof.
  induction suppliers as [|s0 rest IH]; intros i table s Hs; simpl; [done|].
  simpl in Hs. rewrite IH by tauto. apply lookup_alter_ne. tauto.
Qed.

Lemma scoreRows_is_Some (suppliers : list string) :
  forall i (table : gmap string (gmap string (option R))) s,
    is_Some (table !! s) ->
    is_Some (scoreRows criterion scoreAt i suppliers table !! s).
Proof.
  induction suppliers as [|s0 rest IH]; intros i table s Hs; simpl; [done|].
  apply IH. destruct (decide (s0 = s)) as [-> | Hne].
  - rewrite lookup_alter_eq. by apply fmap_is_Some.
  - by rewrite lookup_alter_ne.
Qed.

Lemma scoreRows_other (suppliers : list string) :
  forall i (table : gmap string (gmap string (option R))) s c,
    c <> criterion ->
    (scoreRows criterion scoreAt i suppliers table !! s) ≫= (fun e => e !! c)
    = (table !! s) ≫= (fun e => e !! c).
Proof.
  induction suppliers as [|s0 rest IH]; intros i table s c Hc; simpl; [done|].
  rewrite IH by done. destruct (decide (s0 = s)) as [-> | Hne].
  - rewrite lookup_alter_eq. destruct (table !! s) as [e|]; simpl; [|done].
    by rewrite lookup_insert_ne.
  - by rewrite lookup_alter_ne.
Qed.

(** The row written last for a supplier is the one that stays. *)
Lemma scoreRows_last (suppliers : list string) :
  forall i0 (table : gmap string (gmap string (option R))) s i,
    suppliers !! i = Some s ->
    (forall j, (i < j)%nat -> suppliers !! j <> Some s) ->
    is_Some (table !! s) ->
    (scoreRows criterion scoreAt i0 suppliers table !! s)
      ≫= (fun e => e !! criterion)
    = Some (scoreAt (i0 + i)%nat).
Proof.
  induction suppliers as [|s0 rest IH]; intros i0 table s i Hi Hlast Hs; [done|].
  simpl. destruct i as [|i].
  - injection Hi as ->. rewrite scoreRows_notin.
    + rewrite lookup_alter_eq. destruct Hs as [e ->]. simpl.
      rewrite Nat.add_0_r. apply lookup_insert_eq.
    + intros Hin. apply list_elem_of_In, list_elem_of_lookup in Hin as [j Hj].
      by apply (Hlast (S j)); [lia|].
  - rewrite (IH (S i0) _ s i).
    + f_equal. f_equal. lia.
    + exact Hi.
    + intros j Hj. apply (Hlast (S j)). lia.
    + destruct (decide (s0 = s)) as [-> | Hne].
      * rewrite lookup_alter_eq. by apply fmap_is_Some.
      * by rewrite lookup_alter_ne.
Qed.
End table.

Lemma emptyRows_is_Some (suppliers : list string) :
  forall (table : gmap string (gmap string (option R))) s,
    is_Some (table !! s) \/ In s suppliers ->
    is_Some (fold_left (fun table s => <[s := ∅]> table) suppliers table !! s).
Proof.
  induction suppliers as [|s0 rest IH]; intros table s Hs; simpl.
  - destruct Hs as [Hs | []]. exact Hs.
  - apply IH. destruct (decide (s0 = s)) as [-> | Hne].
    + left. rewrite lookup_insert_eq. by eexists.
    + rewrite lookup_insert_ne by done. simpl in Hs. tauto.
Qed.

Section criteria.
Context (m : AnalysisMethod) (suppliers : list string)
        (criteriaData : gmap string (list R)).

Lemma scoreCriteria_is_Some (criteria : list string) :
  forall (table : gmap string (gmap string (option R))) s,
    is_Some (table !! s) ->
    is_Some (scoreCriteria m suppliers criteriaData criteria table !! s).
Proof.
  unfold scoreCriteria.
  induction criteria as [|c rest IH]; intros table s Hs; simpl; [done|].
  apply IH. by apply scoreRows_is_Some.
Qed.

(** After all criteria are scored, the entry of a supplier holds, for each
    criterion, the score of the last row that carries its name. *)
Lemma scoreCriteria_last (criteria : list string) :
  forall (table : gmap string (gmap string (option R))) s i c,
    In c criteria ->
    suppliers !! i = Some s ->
    (forall j, (i < j)%nat -> suppliers !! j <> Some s) ->
    is_Some (table !! s) ->
    (scoreCriteria m suppliers criteriaData criteria table !! s)
      ≫= (fun e => e !! c)
    = Some (criterionScore m (default [] (criteriaData !! c)) i).
Proof.
  induction criteria as [|c0 rest IH] using rev_ind;
    intros table s i c Hc Hi Hlast Hs; [done|].
  unfold scoreCriteria. rewrite fold_left_app. simpl.
  fold (scoreCriteria m suppliers criteriaData rest table).
  destruct (decide (c = c0)) as [-> | Hne].
  - rewrite (scoreRows_last _ _ suppliers 0 _ s i); try done.
    by apply scoreCriteria_is_Some.
  - rewrite scoreRows_other by done. apply IH; try done.
    apply in_app_or in Hc as [Hc | [Hc | []]]; [done | congruence].
Qed.
End criteria.

Lemma extractCriteria_spec (excel : ExcelData) (criteria : list string) :
  forall d d',
    extractCriteria excel criteria d = Done d' ->
    (forall c, In c criteria ->
       exists i, JS.indexOf (headers excel) c = Some i
                 /\ d' !! c = Some (numericColumn (data excel) i)
                 /\ numericColumn (data excel) i <> [])
    /\ (forall c, ~ In c criteria -> d' !! c = d !! c).
Proof.
  induction criteria as [|c rest IH]; intros d d'; simpl.
  - intros [= <-]. split; [tauto | done].
  - destruct (JS.indexOf (headers excel) c) as [i|] eqn:Ei; [|done].
    destruct (length (numericColumn (data excel) i) =? 0)%nat eqn:El; [done|].
    intros Hd. apply IH in Hd as [IH1 IH2]. split.
    + intros c' [<- | Hin]; [|by apply IH1].
      destruct (decide (c ∈ rest)) as [Hc | Hc].
      * apply IH1. by apply list_elem_of_In.
      * exists i. split; [done|].
        rewrite IH2 by (by rewrite <- list_elem_of_In).
        rewrite lookup_insert_eq. split; [done|].
        apply Nat.eqb_neq in El. by destruct (numericColumn (data excel) i).
    + intros c' Hnin. rewrite IH2 by tauto.
      apply lookup_insert_ne. intros ->. tauto.
Qed.

Section ranking.
Context `{Host}.

(** What [perform] returns when it returns a ranking. *)
Lemma perform_Done (m : AnalysisMethod) (st : State) ranks res :
  perform m st = Done (ranks, res) ->
  exists excel idx criteriaData table,
    excelData st = Some excel
    /\ JS.indexOf (headers excel) (evaluationColumn st) = Some idx
    /\ extractCriteria excel (selectedVariables st) ∅ = Done criteriaData
    /\ data_suppliers res
       = map (fun row => supplierName (at_col row idx)) (data excel)
    /\ weights res = getNormalizedWeights (criteriaWeights st)
    /\ table
       = scoreCriteria m (data_suppliers res) criteriaData (selectedVariables st)
           (fold_left (fun table s => <[s := ∅]> table) (data_suppliers res) ∅)
    /\ exists scored,
         Permutation scored (data_suppliers res)
         /\ rankedSuppliers res
            = imap (withRanks ranks)
                (map (fun supplier =>
                        let criteriaScores := default ∅ (table !! supplier) in
                        {| supplier := supplier;
                           score := overallScore (selectedVariables st)
                                      criteriaScores (weights res);
                           distance :=
                             match m with
                             | topsis => None
                             | euclidean =>
                                 Some (totalWeightedDistance (selectedVariables st)
                                         criteriaScores (weights res))
                             end;
                           criteriaScores := criteriaScores;
                           originalRank := None;
                           rankChange := None |})
                     scored).
Proof.
  unfold perform. destruct (excelData st) as [excel|] eqn:Ee; [|done].
  destruct (_ || _); [done|].
  destruct (JS.indexOf (headers excel) (evaluationColumn st)) as [idx|] eqn:Ei;
    [|done].
  destruct (extractCriteria excel (selectedVariables st) ∅) as [|cd] eqn:Ec; [done|].
  intros [= <- <-]. cbn [data_suppliers weights rankedSuppliers].
  eexists excel, idx, cd, _. repeat (split; [done|]).
  set (mk := fun supplier : string => _).
  set (suppliers := map _ (data excel)).
  pose proof (@sort_perm SupplierScore
                (fun a b => scoreBelow (score a) (score b)) (map mk suppliers))
    as Hp.
  exists (map supplier
            (JS.sort (fun a b => scoreBelow (score a) (score b)) (map mk suppliers))).
  split.
  - rewrite Hp. rewrite map_map. simpl. by rewrite map_id.
  - f_equal. rewrite map_map.
    assert (Hmk : forall l : list SupplierScore,
               Forall (fun r => mk (supplier r) = r) l ->
               map (fun r => mk (supplier r)) l = l).
    { induction 1 as [|r l Hr _ IH]; simpl; [done|]. by rewrite Hr, IH. }
    symmetry. apply Hmk.
    rewrite Hp. apply Forall_forall. intros r Hr.
    apply list_elem_of_In, in_map_iff in Hr as (s & <- & _). done.
Qed.
End ranking.

Section keyed.
Context `{Host}.

Lemma ranked_members ranks (mk : string -> SupplierScore) scored r :
  In r (imap (withRanks ranks) (map mk scored)) ->
  exists s, In s scored
    /\ supplier r = supplier (mk s)
    /\ criteriaScores r = criteriaScores (mk s)
    /\ score r = score (mk s).
Proof.
  intros Hr. apply list_elem_of_In, elem_of_lookup_imap in Hr as (k & x & -> & Hk).
  apply list_lookup_fmap_Some in Hk as (s & -> & Hs).
  exists s. split; [|done].
  apply list_elem_of_In, list_elem_of_lookup. by exists k.
Qed.

Lemma imap_suppliers (l : list SupplierScore) :
  forall f : nat -> SupplierScore -> SupplierScore,
    (forall k x, supplier (f k x) = supplier x) ->
    map supplier (imap f l) = map supplier l.
Proof.
  induction l as [|x l IH]; intros f Hf; simpl; [done|].
  rewrite Hf. f_equal. apply IH. intros k y. apply Hf.
Qed.

(** The scores of a ranking, by identifier. *)
Lemma perform_scores (m : AnalysisMethod) (st : State) ranks res :
  perform m st = Done (ranks, res) ->
  exists excel idx criteriaData,
    excelData st = Some excel
    /\ JS.indexOf (headers excel) (evaluationColumn st) = Some idx
    /\ extractCriteria excel (selectedVariables st) ∅ = Done criteriaData
    /\ data_suppliers res
       = map (fun row => supplierName (at_col row idx)) (data excel)
    /\ supplierName CEmpty = EmptyString
    /\ Permutation (map supplier (rankedSuppliers res)) (data_suppliers res)
    /\ (forall r1 r2,
          In r1 (rankedSuppliers res) -> In r2 (rankedSuppliers res) ->
          supplier r1 = supplier r2 ->
          criteriaScores r1 = criteriaScores r2 /\ score r1 = score r2)
    /\ (forall r, In r (rankedSuppliers res) ->
          score r = overallScore (selectedVariables st) (criteriaScores r)
                      (weights res))
    /\ (forall r c i,
          In r (rankedSuppliers res) -> In c (selectedVariables st) ->
          data_suppliers res !! i = Some (supplier r) ->
          (forall j, (i < j)%nat -> data_suppliers res !! j <> Some (supplier r)) ->
          criteriaScores r !! c
          = Some (criterionScore m (default [] (criteriaData !! c)) i)).
Proof.
  intros Hp. apply perform_Done in Hp
    as (excel & idx & cd & table & He & Hi & Hc & Hs & Hw & Ht & scored & Hperm & Hr).
  exists excel, idx, cd. do 5 (split; [done|]).
  rewrite Hr. set (mk := fun supplier : string => _) in *.
  split; [|split; [|split]].
  - rewrite imap_suppliers by done. rewrite map_map. simpl.
    by rewrite map_id.
  - intros r1 r2 H1 H2 E.
    apply ranked_members in H1 as (s1 & _ & E1 & C1 & S1).
    apply ranked_members in H2 as (s2 & _ & E2 & C2 & S2).
    rewrite C1, C2, S1, S2. simpl in E1, E2.
    assert (s1 = s2) as -> by congruence. done.
  - intros r Hin. apply ranked_members in Hin as (s & _ & _ & C & S).
    by rewrite C, S.
  - intros r c i Hin Hcin Hlook Hlast.
    apply ranked_members in Hin as (s & _ & E & C & _).
    rewrite C. simpl in E. rewrite E in Hlook, Hlast. simpl.
    pose proof (scoreCriteria_last m (data_suppliers res) cd (selectedVariables st)
                  (fold_left (fun table s => <[s := ∅]> table) (data_suppliers res) ∅)
                  s i c Hcin Hlook Hlast) as Hl.
    rewrite <- Ht in Hl.
    destruct (table !! s) as [e|]; simpl in *; [apply Hl|].
    + apply emptyRows_is_Some. right.
      apply list_elem_of_In, list_elem_of_lookup. by exists i.
    + discriminate Hl.
      apply emptyRows_is_Some. right.
      apply list_elem_of_In, list_elem_of_lookup. by exists i.
Qed.

(** C10: in both ranking variants every row of the sheet is an
    alternative, a missing identifier being read as the empty text, and all
    of them are ranked.  The per-criterion scores are kept by identifier:
    result rows with the same identifier have the same per-criterion scores
    and the same overall score, and the score kept for a criterion is the
    one computed for the last row that carries the identifier. *)
Theorem ranking_keyed_by_identifier (m : AnalysisMethod) (st : State) ranks res :
  perform m st = Done (ranks, res) ->
  exists excel idx criteriaData,
    excelData st = Some excel
    /\ JS.indexOf (headers excel) (evaluationColumn st) = Some idx
    /\ extractCriteria excel (selectedVariables st) ∅ = Done criteriaData
    /\ data_suppliers res
       = map (fun row => supplierName (at_col row idx)) (data excel)
    /\ supplierName CEmpty = EmptyString
    /\ Permutation (map supplier (rankedSuppliers res)) (data_suppliers res)
    /\ (forall r1 r2,
          In r1 (rankedSuppliers res) -> In r2 (rankedSuppliers res) ->
          supplier r1 = supplier r2 ->
          criteriaScores r1 = criteriaScores r2 /\ score r1 = score r2)
    /\ (forall r, In r (rankedSuppliers res) ->
          score r = overallScore (selectedVariables st) (criteriaScores r)
                      (weights res))
    /\ (forall r c i,
          In r (rankedSuppliers res) -> In c (selectedVariables st) ->
          data_suppliers res !! i = Some (supplier r) ->
          (forall j, (i < j)%nat -> data_suppliers res !! j <> Some (supplier r)) ->
          criteriaScores r !! c
          = Some (criterionScore m (default [] (criteriaData !! c)) i)).
Proof. exact (perform_scores m st ranks res). Qed.

End keyed.

(** C10 on the state [twice], where two rows have the identifier A. *)
Lemma ranking_keyed_by_identifier_witness :
  exists ranks res,
    @perform plainHost euclidean twice = Done (ranks, res)
    /\ Permutation (map supplier (rankedSuppliers res))
                   ["A"%string; "B"%string; "A"%string].
Proof.
  eexists _, _. split; [reflexivity|].
  destruct (@ranking_keyed_by_identifier plainHost euclidean twice _ _ eq_refl)
    as (excel & idx & cd & He & Hi & _ & Hs & _ & Hp & _).
  rewrite Hp, Hs. injection He as <-. injection Hi as <-. reflexivity.
Defined.

Lemma criterionScore_out_of_range (m : AnalysisMethod) (values : list R) (i : nat) :
  (length values <= i)%nat -> criterionScore m values i = None.
Proof.
  intros Hi. destruct m; simpl.
  - unfold topsisScore, topsisNormalized.
    rewrite lookup_ge_None_2; [done|].
    destruct (JS.eqb _ _); by rewrite length_map.
  - unfold euclideanScore, euclideanNormalized.
    rewrite lookup_ge_None_2; [done|].
    destruct (JS.Math_min values), (JS.Math_max values); simpl; try lia.
    destruct (JS.eqb _ _); by rewrite length_map.
Qed.

Lemma parseFloat_text : parseFloat "n/a" = None.
Proof. reflexivity. Qed.

Section degenerate.
Context `{Host}.

(** C5 fails on the code, in both ranking variants: with the constant
    criterion column [5; 'n/a'] the series is [5], the ranking is produced,
    and the row B, second in the sheet, has no number as its score on the
    criterion and none as its overall score. *)
Theorem ranking_score_not_a_number (m : AnalysisMethod) :
  exists ranks res,
    perform m (ragged m) = Done (ranks, res)
    /\ (exists r, In r (rankedSuppliers res) /\ supplier r = "B"%string)
    /\ (forall r, In r (rankedSuppliers res) -> supplier r = "B"%string ->
          criteriaScores r !! "q"%string = Some None /\ score r = None).
Proof.
  eexists _, _. split; [reflexivity|].
  destruct (perform_scores m (ragged m) _ _ eq_refl)
    as (excel & idx & cd & He & Hi & Hc & Hs & _ & Hp & _ & Hscore & Hlast).
  injection He as <-. injection Hi as <-.
  apply extractCriteria_spec in Hc as [Hc _].
  destruct (Hc "q"%string) as (i & Hq & Hcd & _); [by left|].
  injection Hq as <-. cbn [data] in Hcd.
  assert (Hv : numericColumn [[CStr "A"; CNum 5]; [CStr "B"; CStr "n/a"]] 1 = [5])
    by reflexivity.
  rewrite Hv in Hcd. split.
  - assert (Hin : In "B"%string (map supplier (rankedSuppliers _)))
      by (eapply Permutation_in; [symmetry; exact Hp | rewrite Hs; simpl; tauto]).
    apply in_map_iff in Hin as (r & Hr & Hin). by exists r.
  - intros r Hin Hr.
    assert (Hq : criteriaScores r !! "q"%string = Some None).
    { etrans; [apply (Hlast r "q"%string 1%nat Hin)|].
      - by left.
      - by rewrite Hs, Hr.
      - intros j Hj. rewrite Hs. simpl.
        do 2 (destruct j as [|j]; [lia|]). done.
      - rewrite Hcd. simpl default.
        by rewrite criterionScore_out_of_range by (simpl; lia). }
    split; [exact Hq|].
    etrans; [apply (Hscore r Hin)|].
    unfold overallScore, scoreOf.
    cbn [selectedVariables ragged fold_left]. by rewrite Hq.
Qed.
End degenerate.

Lemma Rmin_l' (a b : R) : a <= b -> Rmin a b = a.
Proof. intros. unfold Rmin. destruct (Rle_dec a b); lra. Qed.

Lemma Rmax_r' (a b : R) : a <= b -> Rmax a b = b.
Proof. intros. unfold Rmax. destruct (Rle_dec a b); lra. Qed.

(** The better of two rows scores 1 on a criterion, in both variants. *)
Lemma criterionScore_top (m : AnalysisMethod) (a b : R) :
  0 < a < b -> criterionScore m [a; b] 1 = Some 1.
Proof.
  intros Hab. destruct m; simpl.
  - unfold topsisScore, topsisNormalized. simpl.
    set (s := sqrt _).
    assert (Hs : 0 < s) by (apply sqrt_lt_R0; nra).
    destruct (JS.eqb s 0) eqn:E; [apply JSFacts.eqb_spec in E; lra|]. simpl.
    assert (Ht : 0 < / s) by (by apply Rinv_0_lt_compat).
    assert (Hle : a / s <= b / s) by (unfold Rdiv; nra).
    rewrite Rmax_r', Rmin_l' by done.
    f_equal. rewrite Rminus_diag, Rabs_R0, Rplus_0_l.
    assert (Hd : 0 < Rabs (b / s - a / s)).
    { apply Rabs_pos_lt. unfold Rdiv. nra. }
    unfold JS.or_else.
    destruct (JS.eqb (Rabs (b / s - a / s)) 0) eqn:E0;
      [apply JSFacts.eqb_spec in E0; lra|].
    field. lra.
  - unfold euclideanScore, euclideanNormalized. simpl.
    rewrite Rmax_r', Rmin_l' by lra.
    destruct (JS.eqb b a) eqn:E; [apply JSFacts.eqb_spec in E; lra|]. simpl.
    f_equal. replace ((b - a) / (b - a) - 1) with 0 by (field; lra).
    rewrite Rabs_R0. lra.
Qed.

Section stale.
Context `{Host}.

(** C2 fails on the code, in both ranking variants: with the weights 0.3
    and 0.3, whose sum 0.6 is off 1 by more than 1e-3, [handleRun] reports no
    error and produces a ranking computed with 0.3 and 0.3 (the best row
    scores 0.6), while the weights it leaves in the state are 0.5 and 0.5. *)
Theorem handleRun_ranks_with_stale_weights (m : AnalysisMethod) :
  totalWeight (criteriaWeights (light m)) = 0.6
  /\ error (handleRun (light m)) = None
  /\ (exists res,
        result (handleRun (light m)) = Some res
        /\ weights res !! "q"%string = Some 0.3
        /\ weights res !! "p"%string = Some 0.3
        /\ forall r, In r (rankedSuppliers res) -> supplier r = "B"%string ->
             score r = Some 0.6)
  /\ map weight (criteriaWeights (handleRun (light m))) = [0.5; 0.5].
Proof.
  assert (Hsum : totalWeight (criteriaWeights (light m)) = 0.6).
  { unfold totalWeight. simpl. lra. }
  split; [exact Hsum|].
  eassert (E : perform m (light m) = Done (_, _)) by reflexivity.
  assert (Hrun : forall ranks res,
            perform m (light m) = Done (ranks, res) ->
            error (handleRun (light m)) = None
            /\ result (handleRun (light m)) = Some res
            /\ criteriaWeights (handleRun (light m))
               = distributeRemainingWeight (criteriaWeights (light m))).
  { intros ranks res Hd. unfold handleRun, performTOPSIS, performEuclideanDistance.
    cbn [selectedMethod light]. fold (light m).
    destruct m; rewrite Hd; done. }
  destruct (Hrun _ _ E) as (-> & -> & ->). clear Hrun.
  split; [reflexivity|]. split.
  - eexists. split; [reflexivity|].
    destruct (perform_scores m (light m) _ _ E)
      as (excel & idx & cd & He & Hi & Hc & Hs & _ & Hp & _ & Hscore & Hlast).
    injection He as <-. injection Hi as <-.
    apply extractCriteria_spec in Hc as [Hc _].
    destruct (Hc "q"%string) as (iq & Hq & Hcq & _); [by left|].
    destruct (Hc "p"%string) as (ip & Hp' & Hcp & _); [by right; left|].
    injection Hq as <-. injection Hp' as <-. cbn [data] in Hcq, Hcp.
    change (numericColumn _ 1) with [1; 3] in Hcq.
    change (numericColumn _ 2) with [1; 2] in Hcp.
    cbn [weights]. unfold getNormalizedWeights. cbn [criteriaWeights light fold_left].
    split; [by rewrite lookup_insert_ne, lookup_insert_eq|].
    split; [by rewrite lookup_insert_eq|].
    intros r Hin Hr.
    assert (Hrow : forall c values, In c ["q"%string; "p"%string] ->
              cd !! c = Some values -> length values = 2%nat ->
              criteriaScores r !! c = Some (criterionScore m values 1)).
    { intros c values Hcin Hcd _.
      etrans; [apply (Hlast r c 1%nat Hin Hcin)|].
      - by rewrite Hs, Hr.
      - intros j Hj. rewrite Hs. simpl.
        do 2 (destruct j as [|j]; [lia|]). done.
      - by rewrite Hcd. }
    etrans; [apply (Hscore r Hin)|].
    unfold overallScore, scoreOf. cbn [selectedVariables light fold_left weights].
    rewrite (Hrow "q"%string [1; 3]), (Hrow "p"%string [1; 2]);
      try done; try (simpl; tauto).
    rewrite !criterionScore_top by lra.
    unfold getNormalizedWeights. cbn [criteriaWeights light fold_left].
    rewrite lookup_insert_eq, lookup_insert_ne, lookup_insert_eq by done.
    simpl. f_equal. lra.
  - unfold distributeRemainingWeight. rewrite Hsum.
    destruct (JS.eqb 0.6 1) eqn:E1; [apply JSFacts.eqb_spec in E1; lra|].
    destruct (JS.eqb 0.6 0) eqn:E0; [apply JSFacts.eqb_spec in E0; lra|].
    cbn [length Nat.eqb light criteriaWeights orb List.filter weight].
    unfold JS.gtb.
    destruct (JS.ltb 0 0.3) eqn:E3; [|apply JSFacts.ltb_false in E3; lra].
    cbn [length Nat.eqb map weight].
    destruct (JS.eqb 0.3 0) eqn:E4; [apply JSFacts.eqb_spec in E4; lra|].
    cbn [weight]. unfold totalWeight. cbn [fold_left weight].
    assert (Ew : 0.3 + (1 - 0.6) * (0.3 / (0 + 0.3 + 0.3)) = 0.5) by lra.
    by rewrite Ew.
Qed.
End stale.


Lemma criterionScore_in_range (m : AnalysisMethod) (values : list R) (i : nat) :
  (i < length values)%nat -> is_Some (criterionScore m values i).
Proof.
  intros Hi. destruct values as [|v values]; [simpl in Hi; lia|].
  destruct m; simpl.
  - unfold topsisScore.
    assert (Hl : length (topsisNormalized (v :: values)) = length (v :: values)).
    { unfold topsisNormalized. destruct (JS.eqb _ _); by rewrite length_map. }
    destruct (lookup_lt_is_Some_2 (topsisNormalized (v :: values)) i) as [nv ->];
      [lia|].
    destruct (topsisNormalized (v :: values)) as [|n ns]; [done|].
    simpl. by eexists.
  - unfold euclideanScore.
    assert (Hl : length (euclideanNormalized (v :: values)) = length (v :: values)).
    { unfold euclideanNormalized. cbn [JS.Math_min JS.Math_max].
      destruct (JS.eqb _ _); by rewrite length_map. }
    destruct (lookup_lt_is_Some_2 (euclideanNormalized (v :: values)) i) as [nv ->];
      [lia|].
    simpl. by eexists.
Qed.

Lemma fold_Rmin_constant (c : R) (l : list R) :
  (forall v, In v l -> v = c) -> fold_left Rmin l c = c.
Proof.
  induction l as [|v l IH]; intros Hc; simpl; [done|].
  rewrite (Hc v) by (by left). rewrite Rmin_left by lra.
  apply IH. intros; apply Hc; by right.
Qed.

Lemma fold_Rmax_constant (c : R) (l : list R) :
  (forall v, In v l -> v = c) -> fold_left Rmax l c = c.
Proof.
  induction l as [|v l IH]; intros Hc; simpl; [done|].
  rewrite (Hc v) by (by left). rewrite Rmax_left by lra.
  apply IH. intros; apply Hc; by right.
Qed.

(** A constant column gives 0.5 to the rows it has a value for. *)
Lemma euclideanScore_constant (c : R) (values : list R) (i : nat) :
  (forall v, In v values -> v = c) -> (i < length values)%nat ->
  euclideanNormalized values !! i = Some 0.5
  /\ euclideanScore values i = Some 0.5.
Proof.
  intros Hc Hi. destruct values as [|v values]; [simpl in Hi; lia|].
  assert (v = c) as -> by (apply Hc; by left).
  assert (Hn : euclideanNormalized (c :: values) = map (fun _ => 0.5) (c :: values)).
  { unfold euclideanNormalized. simpl.
    rewrite fold_Rmin_constant, fold_Rmax_constant
      by (intros; apply Hc; by right).
    by rewrite JSFacts.eqb_refl. }
  assert (Hl : euclideanNormalized (c :: values) !! i = Some 0.5).
  { rewrite Hn, list_lookup_fmap.
    destruct (lookup_lt_is_Some_2 (c :: values) i) as [x ->]; [lia|]. done. }
  split; [exact Hl|].
  unfold euclideanScore. rewrite Hl. simpl. f_equal. RoundLambda.rabs.
Qed.

Section weights.
Context `{Host}.

(** A run ranks with the weights of the current render and leaves the
    redistributed ones to the next. *)
Lemma handleRun_weights (st : State) ranks res :
  perform (selectedMethod st) st = Done (ranks, res) ->
  result (handleRun st) = Some res
  /\ weights res = getNormalizedWeights (criteriaWeights st)
  /\ criteriaWeights (handleRun st) = distributeRemainingWeight (criteriaWeights st).
Proof.
  intros Hp. unfold handleRun, performTOPSIS, performEuclideanDistance.
  assert (Hw : weights res = getNormalizedWeights (criteriaWeights st)).
  { revert Hp. unfold perform. destruct (excelData st); [|done].
    destruct (_ || _); [done|]. destruct (JS.indexOf _ _); [|done].
    destruct (extractCriteria _ _ _); [done|]. by intros [= _ <-]. }
  destruct (selectedMethod st); rewrite Hp; done.
Qed.
End weights.

End Ranked.

(** ** Forecasting *)

Module Prediction.
Import Sheet Forecast ForecastInputs.

Section stale.
Context `{Host}.

(** [extractData] reads the sheet and the selected columns only. *)
Lemma extractData_reads (st st' : State) :
  excelData st = excelData st' -> timeColumn st = timeColumn st' ->
  supplierColumn st = supplierColumn st' ->
  categoryColumns st = categoryColumns st' ->
  extractData st = extractData st'.
Proof. unfold extractData. by intros -> -> -> ->. Qed.

Lemma extractData_fresh : extractData fresh = Done observed.
Proof. reflexivity. Qed.

(** The first run returns no result. *)
Lemma runPrediction_first :
  predictionResults (runPrediction fresh) = []
  /\ supplierHistory (runPrediction fresh) = observed
  /\ excelData (runPrediction fresh) = excelData fresh
  /\ timeColumn (runPrediction fresh) = timeColumn fresh
  /\ supplierColumn (runPrediction fresh) = supplierColumn fresh
  /\ categoryColumns (runPrediction fresh) = categoryColumns fresh
  /\ alphaValue (runPrediction fresh) = alphaValue fresh
  /\ declineThreshold (runPrediction fresh) = declineThreshold fresh.
Proof.
  unfold runPrediction. rewrite extractData_fresh. repeat split.
Qed.

(** C9 fails on the code: two runs in succession, with the same sheet and
    the same settings, give different results.  The first run, on a
    component that has not run before, returns no result; the second returns
    the one series of the sheet. *)
Theorem runPrediction_depends_on_previous_run :
  let first := runPrediction fresh in
  let second := runPrediction first in
  (excelData first = excelData fresh
   /\ timeColumn first = timeColumn fresh
   /\ supplierColumn first = supplierColumn fresh
   /\ categoryColumns first = categoryColumns fresh
   /\ alphaValue first = alphaValue fresh
   /\ declineThreshold first = declineThreshold fresh)
  /\ predictionResults first = []
  /\ exists r,
       predictionResults second = [r]
       /\ supplier r = "S"%string /\ category r = "q"%string
       /\ actualValues r = [80; 60; 70].
Proof.
  intros first second.
  destruct runPrediction_first as (Hr & Hh & He & Ht & Hs & Hc & Ha & Hd).
  fold first in Hr, Hh, He, Ht, Hs, Hc, Ha, Hd.
  split; [done|]. split; [done|].
  assert (E : extractData first = Done observed).
  { rewrite (extractData_reads first fresh) by done. apply extractData_fresh. }
  subst second. unfold runPrediction at 1. rewrite E.
  cbn [predictionResults]. rewrite Hh, Ha, Hd.
  eexists. split; [reflexivity|]. done.
Qed.
End stale.

End Prediction.

(** ** Correlation coefficient *)

Module Coefficient.
Import Sheet Correlation Sums.



(** A series paired with itself: the three sums stay equal, and each
    element adds its squared distance from the centre. *)
Lemma pearson_fold_self (m : R) (x : list R) :
  forall s,
    0 <= s ->
    exists t,
      fold_left
        (fun '(numerator, xss, yss) '(xi, yi) =>
           (numerator + (xi - m) * (yi - m),
            xss + (xi - m) * (xi - m), yss + (yi - m) * (yi - m)))
        (zip x x) (s, s, s) = (t, t, t)
      /\ s <= t
      /\ (t = s -> forall v, In v x -> v = m).
Proof.
  induction x as [|xi x IH]; intros s Hs.
  - exists s. repeat split; [lra | by intros _ v []].
  - simpl.
    pose proof (Rle_0_sqr (xi - m)) as Hq. unfold Rsqr in Hq.
    destruct (IH (s + (xi - m) * (xi - m))) as (t & E & Hle & Hall); [lra|].
    exists t. repeat split; [done | lra |].
    intros Et v [<- | Hv].
    + assert (H0 : (xi - m) * (xi - m) = 0) by lra.
      apply Rmult_integral in H0. lra.
    + apply Hall; [lra | done].
Qed.

(** X2: a series with two different values has coefficient 1 with itself. *)
Theorem calculatePearsonCorrelation_self (x : list R) (a b : R) :
  In a x -> In b x -> a <> b ->
  calculatePearsonCorrelation x x = 1.
Proof.
  intros Ha Hb Hab. unfold calculatePearsonCorrelation.
  rewrite Nat.min_id.
  destruct (length x =? 0)%nat eqn:E.
  { apply Nat.eqb_eq in E. destruct x; [destruct Ha | done]. }
  destruct (pearson_fold_self (JS.sum x / INR (length x)) x 0) as (t & -> & Ht & Hall);
    [lra|].
  assert (Hne : t <> 0).
  { intros ->. apply Hab. by rewrite (Hall eq_refl a), (Hall eq_refl b). }
  apply JSFacts.eqb_false in Hne as Et. rewrite Et. simpl.
  rewrite sqrt_square by done. field. done.
Qed.

Lemma calculatePearsonCorrelation_self_witness :
  calculatePearsonCorrelation [1; 2] [1; 2] = 1.
Proof.
  apply (calculatePearsonCorrelation_self [1; 2] 1 2); simpl; [tauto | tauto | lra].
Defined.








End Coefficient.

(** ** Significance and descriptive statistics *)

Module Significance.
Import Sheet Correlation.



End Significance.

Module Stats.
Import Sheet Correlation Sums.




End Stats.

(** ** Choice of lambda *)

Module Lambda.
Import Sheet Correlation Stating.

(** The search of [findOptimalLambda] over any grid, from any pair it has
    reached. *)
Lemma above_le_trans (x best r : option R) :
  above x best = false -> above best r = false -> above x r = false.
Proof.
  destruct x as [x|], best as [b|], r as [r|]; simpl; try done.
  unfold JS.gtb. rewrite !JSFacts.ltb_false. lra.
Qed.

Lemma above_below (new best r : option R) :
  above new best = true -> above new r = false -> above best r = false.
Proof.
  destruct new as [n|], best as [b|], r as [r|]; simpl; try done.
  unfold JS.gtb. rewrite JSFacts.ltb_spec, !JSFacts.ltb_false. lra.
Qed.

Lemma above_irrefl (x : option R) : above x x = false.
Proof. destruct x as [x|]; [|done]. apply JSFacts.ltb_false. lra. Qed.

Lemma search_maximal (LL : R -> option R) (grid : list R) :
  forall bestLambda bestLogLikelihood r,
    r = fold_left
          (fun '(bestLambda, bestLogLikelihood) lambda =>
             let logLikelihood := LL lambda in
             if above logLikelihood bestLogLikelihood
             then (lambda, logLikelihood)
             else (bestLambda, bestLogLikelihood))
          grid (bestLambda, bestLogLikelihood) ->
    (r = (bestLambda, bestLogLikelihood) \/ (In (fst r) grid /\ snd r = LL (fst r)))
    /\ above bestLogLikelihood (snd r) = false
    /\ forall l, In l grid -> above (LL l) (snd r) = false.
Proof.
  induction grid as [|g grid IH]; intros bl bll r Er.
  - subst r. simpl. split; [by left|].
    split; [apply above_irrefl | by intros l []].
  - cbn [fold_left] in Er. cbv beta iota zeta in Er.
    destruct (above (LL g) bll) eqn:Eg.
    + apply IH in Er as (Ho & Hb & Hall).
      split; [right|split].
      * destruct Ho as [-> | [Hin E]]; [simpl; by split; [left|] |].
        split; [by right | done].
      * by apply (above_below (LL g)).
      * intros l [<- | Hl]; [done | by apply Hall].
    + apply IH in Er as (Ho & Hb & Hall).
      split; [|split; [done|]].
      * destruct Ho as [-> | [Hin E]]; [by left | right].
        split; [by right | done].
      * intros l [<- | Hl]; [|by apply Hall].
        by apply (above_le_trans _ bll).
Qed.

Lemma findOptimalLambda_in_grid (values : list R) :
  In (findOptimalLambda values) lambdaRange.
Proof.
  assert (H1 : In 1 lambdaRange) by (unfold lambdaRange; simpl; tauto).
  unfold findOptimalLambda.
  destruct (someNonPositive values); [done|].
  match goal with |- context [fst ?f] => remember f as r eqn:Er end.
  destruct (search_maximal (calculateBoxCoxLogLikelihood values) lambdaRange
              1 None r Er) as (Ho & _ & _).
  by destruct Ho as [-> | [Hin _]].
Qed.


(** What [roundLambda] gives on the grid of [findOptimalLambda]. *)
Ltac scan_step :=
  rewrite RoundLambda.scan_cons;
  match goal with
  | |- context [JS.ltb ?a ?b] =>
      let E := fresh "E" in
      destruct (JS.ltb a b) eqn:E;
      [apply JSFacts.ltb_spec in E | apply JSFacts.ltb_false in E];
      try (exfalso; clear -E; RoundLambda.rabs)
  end.

Lemma roundLambda_grid :
  roundLambda (-2) = -2 /\ roundLambda (-1.5) = -2 /\ roundLambda (-1) = -1
  /\ roundLambda (-0.5) = -0.5 /\ roundLambda 0 = 0 /\ roundLambda 0.5 = 0.5
  /\ roundLambda 1 = 1 /\ roundLambda 1.5 = 1 /\ roundLambda 2 = 2.
Proof.
  rewrite !RoundLambda.roundLambda_scan. unfold commonLambdas.
  repeat split; repeat scan_step; reflexivity.
Qed.

(** The two lambdas of [calculateBasicStats]. *)
Lemma stats_lambdas (values : list R) :
  let s := calculateBasicStats values in
  (optimalLambda s, roundedLambda s)
  = if negb (length values =? 0)%nat && negb (isNormalDistributed s)
       && negb (someNonPositive values)
    then (findOptimalLambda values, roundLambda (findOptimalLambda values))
    else (1, 1).
Proof.
  cbv zeta. unfold calculateBasicStats.
  destruct (length values =? 0)%nat; [reflexivity|].
  cbv zeta.
  match goal with
  | |- context [negb ?n && negb (someNonPositive values)] =>
      destruct n; destruct (someNonPositive values); reflexivity
  end.
Qed.

(** X8: the lambda applied to a series is the rounding of the lambda found
    for it; the lambda found is a value of the search grid, and the one
    applied is one of -2, -1, -0.5, 0, 0.5, 1, 2, each an entry of the
    table of transformations. *)
Theorem calculateBasicStats_lambda_on_table (values : list R) :
  let s := calculateBasicStats values in
  In (optimalLambda s) lambdaRange
  /\ roundedLambda s = roundLambda (optimalLambda s)
  /\ In (roundedLambda s) [-2; -1; -0.5; 0; 0.5; 1; 2]
  /\ exists t, In t powerTransformations /\ pt_lambda t = roundedLambda s
               /\ applyPowerTransformation values (roundedLambda s)
                  = map (transform t) values.
Proof.
  cbv zeta.
  assert (Hin : In (optimalLambda (calculateBasicStats values)) lambdaRange
                /\ roundedLambda (calculateBasicStats values)
                   = roundLambda (optimalLambda (calculateBasicStats values))).
  { pose proof (stats_lambdas values) as E. cbv zeta in E.
    destruct (_ && _ && _) in E; injection E as -> ->.
    - split; [apply findOptimalLambda_in_grid | done].
    - split; [unfold lambdaRange; simpl; tauto|].
      symmetry. apply roundLambda_grid. }
  destruct Hin as [Hin Er]. split; [done|]. split; [done|].
  rewrite Er. revert Hin. generalize (optimalLambda (calculateBasicStats values)).
  intros o Ho.
  destruct roundLambda_grid as (E1 & E2 & E3 & E4 & E5 & E6 & E7 & E8 & E9).
  unfold lambdaRange in Ho. simpl in Ho.
  destruct Ho as [<-|[<-|[<-|[<-|[<-|[<-|[<-|[<-|[<-|[]]]]]]]]]];
    rewrite ?E1, ?E2, ?E3, ?E4, ?E5, ?E6, ?E7, ?E8, ?E9;
    (split; [simpl; tauto|]);
    unfold applyPowerTransformation; simpl;
    PowerTransform.eqb_false; try lra;
    (eexists; split; [|split; [|reflexivity]]; [simpl; tauto | reflexivity]).
Qed.

(** X9: a series with a value that is not positive, and a series that
    passes the normality test, is correlated as it is: the lambda is 1 and
    the transformation gives the series back. *)
Theorem calculateBasicStats_untransformed (values : list R) :
  isNormalDistributed (calculateBasicStats values) = true
  \/ (exists v, In v values /\ v <= 0) ->
  optimalLambda (calculateBasicStats values) = 1
  /\ roundedLambda (calculateBasicStats values) = 1
  /\ applyPowerTransformation values (roundedLambda (calculateBasicStats values))
     = values.
Proof.
  intros Hc.
  assert (E : (optimalLambda (calculateBasicStats values),
               roundedLambda (calculateBasicStats values)) = (1, 1)).
  { pose proof (stats_lambdas values) as E. cbv zeta in E. rewrite E.
    destruct Hc as [-> | (v & Hv & Hle)].
    - by rewrite andb_false_r.
    - assert (Es : someNonPositive values = true).
      { apply existsb_exists. exists v. split; [done|]. by apply JSFacts.leb_spec. }
      by rewrite Es, andb_false_r. }
  injection E as -> ->. repeat split.
  unfold applyPowerTransformation. simpl.
  PowerTransform.eqb_false; try lra. apply map_id.
Qed.

Lemma calculateBasicStats_untransformed_witness :
  optimalLambda (calculateBasicStats [3; -1; 8]) = 1
  /\ roundedLambda (calculateBasicStats [3; -1; 8]) = 1
  /\ applyPowerTransformation [3; -1; 8]
       (roundedLambda (calculateBasicStats [3; -1; 8]))
     = [3; -1; 8].
Proof.
  apply (calculateBasicStats_untransformed [3; -1; 8]).
  right. exists (-1). split; [simpl; tauto | lra].
Defined.

End Lambda.

(** ** Forecasting *)

Module Forecasting.
Import Sheet Forecast Shapes.

(** ** Smoothed values stay within the range of the observations *)





(** ** Accuracy *)





(** ** Trend *)




(** ** Results of a run *)

Lemma exponentialSmoothing_split (data : list R) (alpha : R) :
  data <> [] ->
  let smoothed := exponentialSmoothing data alpha in
  length (take (length smoothed - 1) smoothed) = length data
  /\ nth (length smoothed - 1) smoothed 0
     = alpha * nth (length data - 1) data 0
       + (1 - alpha)
         * nth (length data - 1) (take (length smoothed - 1) smoothed) 0.
Proof.
  intros Hne. destruct data as [|first rest]; [done|]. cbv zeta.
  rewrite Smoothing.exponentialSmoothing_cons. cbv zeta.
  set (result := smoothingLoop (first :: rest) alpha (length rest) 1 [first]).
  assert (Hl : length result = S (length rest)).
  { unfold result. rewrite Smoothing.smoothingLoop_length. simpl. lia. }
  rewrite length_app. simpl length.
  replace (length result + 1 - 1)%nat with (length result) by lia.
  rewrite !take_app_length.
  split; [by rewrite Hl|].
  rewrite app_nth2, Nat.sub_diag by lia.
  cbn [length]. replace (S (length rest) - 1)%nat with (length rest) by lia.
  reflexivity.
Qed.

(** X13: every result of a run comes from a series of the history with at
    least three observations; it has one fitted value for each
    observation, and its forecast is the smoothing step from the last
    observation and the last fitted value. *)
Theorem predictAll_results (alphaValue declineThreshold : R)
    (history : SupplierHistory) (r : PredictionResult) :
  In r (predictAll alphaValue declineThreshold history) ->
  exists categories series,
    In (supplier r, categories) history
    /\ In (category r, series) categories
    /\ actualValues r = values series
    /\ (3 <= length (actualValues r))%nat
    /\ length (predictedValues r) = length (actualValues r)
    /\ nextPrediction r
       = alphaValue * nth (length (actualValues r) - 1) (actualValues r) 0
         + (1 - alphaValue)
           * nth (length (actualValues r) - 1) (predictedValues r) 0.
Proof.
  unfold predictAll. intros Hr.
  apply in_flat_map in Hr as ([s categories] & Hs & Hr).
  apply list_elem_of_In, list_elem_of_omap in Hr as ([c series] & Hc & Hp).
  apply list_elem_of_In in Hc.
  unfold predict in Hp.
  destruct (length (values series) <? 3)%nat eqn:E3; [done|].
  apply Nat.ltb_ge in E3. injection Hp as <-. cbn.
  assert (Hne : values series <> []).
  { intros E. rewrite E in E3. simpl in E3. lia. }
  exists categories, series. repeat split; try done.
  - by apply exponentialSmoothing_split.
  - by apply exponentialSmoothing_split.
Qed.

Lemma predictAll_results_witness :
  exists categories series,
    In ("S"%string, categories) ForecastInputs.observed
    /\ In ("q"%string, series) categories
    /\ values series = [80; 60; 70].
Proof.
  assert (Hin : exists r,
             In r (predictAll 0.4 5 ForecastInputs.observed)
             /\ supplier r = "S"%string /\ category r = "q"%string
             /\ actualValues r = [80; 60; 70]).
  { eexists. split; [left; reflexivity|]. done. }
  destruct Hin as (r & Hin & Es & Ec & Ea).
  destruct (predictAll_results 0.4 5 ForecastInputs.observed r Hin)
    as (categories & series & H1 & H2 & H3 & _).
  exists categories, series. rewrite <- Es, <- Ec, <- H3, Ea. done.
Defined.

(** ** The history *)







Section history.
Context `{Host}.
Context (categoryColumns : list string) (entry : gmap string cell).






End history.

Section run.
Context `{Host}.




End run.


(** ** The order of the results *)

Section order.
Context `{Host}.




Lemma percent_between (k n : nat) :
  (k <= n)%nat -> (0 < n)%nat -> 0 <= INR k / INR n * 100 <= 100.
Proof.
  intros Hk Hn. apply le_INR in Hk. apply lt_INR in Hn. simpl in Hn.
  pose proof (pos_INR k) as Hp.
  assert (Hi : 0 < / INR n) by by apply Rinv_0_lt_compat.
  assert (H0 : 0 <= INR k / INR n) by (apply Rmult_le_pos; lra).
  assert (H1 : INR k / INR n <= 1).
  { apply (Rmult_le_reg_r (INR n)); [done|].
    unfold Rdiv. rewrite Rmult_assoc, Rinv_l by lra. lra. }
  lra.
Qed.

(** X16: after a run that read the sheet and gave at least one result, the
    overall grade accuracy is a percentage between 0 and 100, and so is
    the accuracy over the results graded C or D when there is one. *)
Theorem runPrediction_percentages (st : State) (history : SupplierHistory) :
  extractData st = Done history ->
  let results :=
    predictAll (alphaValue st) (declineThreshold st) (supplierHistory st) in
  (results <> [] -> 0 <= overallAccuracy (runPrediction st) <= 100)
  /\ ((exists r, In r results /\ isCD r = true) ->
      0 <= cdGradeAccuracy (runPrediction st) <= 100).
Proof.
  intros E results. unfold runPrediction. rewrite E.
  cbn [overallAccuracy cdGradeAccuracy]. fold results.
  split.
  - intros Hne.
    assert (Hl : (0 < length results)%nat) by (destruct results; [done | simpl; lia]).
    rewrite (proj2 (Nat.ltb_lt _ _) Hl).
    apply percent_between; [apply List.filter_length_le | done].
  - intros (r & Hr & Hcd).
    assert (Hl : (0 < length (List.filter isCD results))%nat).
    { assert (Hin : In r (List.filter isCD results)) by by apply List.filter_In.
      destruct (List.filter isCD results); [done | simpl; lia]. }
    rewrite (proj2 (Nat.ltb_lt _ _) Hl).
    apply percent_between; [apply List.filter_length_le | done].
Qed.

End order.


Lemma runPrediction_percentages_witness :
  let st := @runPrediction RankingInputs.plainHost ForecastInputs.fresh in
  0 <= overallAccuracy (@runPrediction RankingInputs.plainHost st) <= 100.
Proof.
  intros st.
  apply (@runPrediction_percentages RankingInputs.plainHost st ForecastInputs.observed);
    [reflexivity|].
  assert (E : exists r,
             predictAll (alphaValue st) (declineThreshold st) (supplierHistory st)
             = [r]) by (eexists; reflexivity).
  destruct E as [r ->]. done.
Defined.

End Forecasting.

(** ** Selection and weights of the ranking *)

Module Weighting.
Import Sheet Ranking RankingWeights Sums.

(** ** Selection *)

(** X17: toggling a name removes it when it is selected and appends it when
    it is not; no other name is touched, and a selection without
    repetition stays so. *)
Theorem handleVariableToggle_selection (variable : string) (prev : list string) :
  (In variable (handleVariableToggle variable prev) <-> ~ In variable prev)
  /\ (forall v, v <> variable ->
        (In v (handleVariableToggle variable prev) <-> In v prev))
  /\ (List.NoDup prev -> List.NoDup (handleVariableToggle variable prev))
  /\ (~ In variable prev ->
      handleVariableToggle variable (handleVariableToggle variable prev) = prev).
Proof.
  unfold handleVariableToggle.
  destruct (bool_decide (variable ∈ prev)) eqn:E.
  - apply bool_decide_eq_true, list_elem_of_In in E.
    split; [|split; [|split]].
    + rewrite filter_In, negb_true_iff, bool_decide_eq_false. tauto.
    + intros v Hv. rewrite filter_In, negb_true_iff, bool_decide_eq_false. tauto.
    + apply List.NoDup_filter.
    + tauto.
  - apply bool_decide_eq_false in E. rewrite list_elem_of_In in E.
    split; [|split; [|split]].
    + rewrite in_app_iff. simpl. tauto.
    + intros v Hv. rewrite in_app_iff. simpl. split; [|tauto].
      intros [?|[?|[]]]; [done | by subst].
    + intros Hnd. apply NoDup_ListNoDup, NoDup_app.
      apply NoDup_ListNoDup in Hnd. split; [done|].
      split; [|apply NoDup_singleton].
      intros x Hx ->%list_elem_of_singleton. by apply E, list_elem_of_In.
    + intros _.
      assert (Hin : variable ∈ prev ++ [variable]) by set_solver.
      rewrite (bool_decide_eq_true_2 _ Hin).
      rewrite List.filter_app. simpl.
      rewrite (bool_decide_eq_true_2 (variable = variable)) by done. simpl.
      rewrite app_nil_r.
      clear Hin. induction prev as [|x prev IH]; [done|]. simpl.
      destruct (decide (x = variable)) as [->|Hx]; [exfalso; apply E; by left|].
      rewrite (bool_decide_eq_false_2 _ Hx). simpl. f_equal. apply IH.
      intros Hin. apply E. by right.
Qed.

(** ** Weights *)

Lemma totalWeight_sum (l : list CriterionWeight) :
  totalWeight l = fold_left (fun sum cw => sum + weight cw) l 0.
Proof. reflexivity. Qed.










End Weighting.

(** ** Scores and order of the ranking *)

Module Scoring.
Import Sheet Ranking RankingInputs Sums.

(** ** Scores on a criterion *)

Lemma fold_Rmin_le (l : list R) : forall a,
  fold_left Rmin l a <= a /\ forall v, In v l -> fold_left Rmin l a <= v.
Proof.
  induction l as [|x l IH]; intros a; simpl; [split; [lra | tauto]|].
  destruct (IH (Rmin a x)) as [Ha Hl].
  pose proof (Rmin_l a x). pose proof (Rmin_r a x).
  split; [lra|]. intros v [<- | Hv]; [lra | by apply Hl].
Qed.

Lemma fold_Rmax_ge (l : list R) : forall a,
  a <= fold_left Rmax l a /\ forall v, In v l -> v <= fold_left Rmax l a.
Proof.
  induction l as [|x l IH]; intros a; simpl; [split; [lra | tauto]|].
  destruct (IH (Rmax a x)) as [Ha Hl].
  pose proof (Rmax_l a x). pose proof (Rmax_r a x).
  split; [lra|]. intros v [<- | Hv]; [lra | by apply Hl].
Qed.

Lemma Math_min_max (l : list R) (v : R) :
  In v l ->
  exists lo hi, JS.Math_min l = Some lo /\ JS.Math_max l = Some hi /\ lo <= v <= hi.
Proof.
  destruct l as [|x l]; [done|]. intros Hv. simpl.
  destruct (fold_Rmin_le l x) as [H1 H2]. destruct (fold_Rmax_ge l x) as [H3 H4].
  eexists _, _. split; [done|]. split; [done|].
  destruct Hv as [<- | Hv]; [lra|]. split; [by apply H2 | by apply H4].
Qed.

(** X21: for a row that has a value on the criterion, the score on the
    criterion is a number between 0 and 1, under both methods. *)
Theorem criterionScore_unit_interval (m : AnalysisMethod) (values : list R) (i : nat) :
  (i < length values)%nat ->
  exists s, criterionScore m values i = Some s /\ 0 <= s <= 1.
Proof.
  intros Hi. destruct m; simpl.
  - unfold topsisScore.
    assert (Hl : length (topsisNormalized values) = length values).
    { unfold topsisNormalized. destruct (JS.eqb _ _); by rewrite length_map. }
    destruct (lookup_lt_is_Some_2 (topsisNormalized values) i) as [nv Hnv]; [lia|].
    rewrite Hnv.
    destruct (Math_min_max (topsisNormalized values) nv) as (lo & hi & -> & -> & Hb).
    { eapply list_elem_of_In, list_elem_of_lookup_2. exact Hnv. }
    simpl. eexists. split; [done|].
    rewrite (Rabs_left1 (nv - hi)), (Rabs_pos_eq (nv - lo)) by lra.
    destruct (JS.eqb _ 0) eqn:E0.
    + apply JSFacts.eqb_spec in E0. lra.
    + apply JSFacts.eqb_false in E0.
      assert (Hp : 0 < - (nv - hi) + (nv - lo)) by lra.
      split.
      * apply Rmult_le_pos; [lra|]. left. by apply Rinv_0_lt_compat.
      * apply (Rmult_le_reg_r (- (nv - hi) + (nv - lo))); [done|].
        unfold Rdiv. rewrite Rmult_assoc, Rinv_l by lra. lra.
  - unfold euclideanScore, euclideanNormalized.
    destruct (lookup_lt_is_Some_2 values i Hi) as [v Hv].
    destruct (Math_min_max values v) as (lo & hi & -> & -> & Hb).
    { eapply list_elem_of_In, list_elem_of_lookup_2. exact Hv. }
    destruct (JS.eqb hi lo) eqn:E.
    + rewrite list_lookup_fmap, Hv. simpl. eexists. split; [done|].
      rewrite Rabs_left by lra. lra.
    + apply JSFacts.eqb_false in E.
      rewrite list_lookup_fmap, Hv. simpl. eexists. split; [done|].
      assert (Hp : 0 < hi - lo) by lra.
      assert (H0 : 0 <= (v - lo) / (hi - lo)).
      { apply Rmult_le_pos; [lra|]. left. by apply Rinv_0_lt_compat. }
      assert (H1 : (v - lo) / (hi - lo) <= 1).
      { apply (Rmult_le_reg_r (hi - lo)); [done|].
        unfold Rdiv. rewrite Rmult_assoc, Rinv_l by lra. lra. }
      rewrite Rabs_left1 by lra. lra.
Qed.

Lemma criterionScore_unit_interval_witness :
  exists s, criterionScore topsis [1; 3] 1 = Some s /\ 0 <= s <= 1.
Proof. apply (criterionScore_unit_interval topsis [1; 3] 1). simpl. lia. Defined.

(** ** The order of the ranking *)

Section descending.
Context {A : Type} (key : A -> option R).

Lemma place_descending (x : A) (l : list A) :
  is_Some (key x) -> Forall (fun a => is_Some (key a)) l ->
  StronglySorted (fun a b => forall u v, key a = Some u -> key b = Some v -> v <= u) l ->
  StronglySorted (fun a b => forall u v, key a = Some u -> key b = Some v -> v <= u)
    (JS.place (fun a b => scoreBelow (key a) (key b)) x l).
Proof.
  intros [kx Hx] Hall Hs. induction Hs as [|y l Hs IH Hy]; simpl.
  - repeat constructor.
  - apply Forall_cons_1 in Hall as [[ky Hky] Hall].
    rewrite Hx, Hky. simpl. unfold JS.gtb.
    destruct (JS.ltb 0 (ky - kx)) eqn:E;
      [apply JSFacts.ltb_spec in E | apply JSFacts.ltb_false in E].
    + constructor; [by apply IH|].
      apply List.Forall_forall. intros z Hz.
      apply (Permutation_in _ (Ranked.place_perm _ _ _)) in Hz as [<- | Hz].
      * intros u v Hu Hv. rewrite Hky in Hu. rewrite Hx in Hv.
        injection Hu as <-. injection Hv as <-. lra.
      * by apply (proj1 (List.Forall_forall _ _) Hy).
    + constructor; [by constructor|].
      constructor.
      * intros u v Hu Hv. rewrite Hx in Hu. rewrite Hky in Hv.
        injection Hu as <-. injection Hv as <-. lra.
      * apply List.Forall_forall. intros z Hz u v Hu Hv.
        rewrite Hx in Hu. injection Hu as <-.
        pose proof (proj1 (List.Forall_forall _ _) Hy z Hz ky v Hky Hv). lra.
Qed.

Lemma sort_descending (l : list A) :
  Forall (fun a => is_Some (key a)) l ->
  StronglySorted (fun a b => forall u v, key a = Some u -> key b = Some v -> v <= u)
    (JS.sort (fun a b => scoreBelow (key a) (key b)) l).
Proof.
  induction 1 as [|x l Hx Hall IH]; [constructor|].
  unfold JS.sort. cbn [foldr]. apply place_descending; [done| |done].
  apply List.Forall_forall. intros z Hz.
  apply (Permutation_in _ (Ranked.sort_perm _ _)) in Hz.
  by apply (proj1 (List.Forall_forall _ _) Hall).
Qed.

Lemma sorted_lookup (rel : A -> A -> Prop) (l : list A) :
  StronglySorted rel l ->
  forall i j a b, (i < j)%nat -> l !! i = Some a -> l !! j = Some b -> rel a b.
Proof.
  induction 1 as [|x l Hs IH Hx]; intros i j a b Hij Ha Hb; [done|].
  destruct j as [|j]; [lia|]. destruct i as [|i].
  - injection Ha as <-. simpl in Hb.
    apply (proj1 (List.Forall_forall _ _) Hx).
    eapply list_elem_of_In, list_elem_of_lookup_2. exact Hb.
  - simpl in Ha, Hb. apply (IH i j); [lia | done..].
Qed.

End descending.

Section ranked.
Context `{Host}.

Lemma perform_sorted (m : AnalysisMethod) (st : State) ranks res :
  perform m st = Done (ranks, res) ->
  exists scored,
    rankedSuppliers res
    = imap (withRanks ranks)
        (JS.sort (fun a b => scoreBelow (score a) (score b)) scored).
Proof.
  unfold perform. destruct (excelData st) as [excel|]; [|done].
  destruct (_ || _); [done|].
  destruct (JS.indexOf (headers excel) (evaluationColumn st)) as [idx|]; [|done].
  destruct (extractCriteria excel (selectedVariables st) ∅) as [|cd]; [done|].
  intros [= <- <-]. cbn [rankedSuppliers]. by eexists.
Qed.

(** X22: in a ranking whose scores are all numbers, a row never has a
    larger score than a row above it; the row at position [i], counted
    from 0, has the new rank [i + 1], and its rank change is its baseline
    rank, 0 when it has none, minus the new rank. *)
Theorem ranking_descending (m : AnalysisMethod) (st : State) ranks res :
  perform m st = Done (ranks, res) ->
  (forall i r, rankedSuppliers res !! i = Some r ->
     originalRank r = Some (default 0%nat (ranks !! supplier r))
     /\ rankChange r
        = Some (Z.of_nat (default 0%nat (ranks !! supplier r)) - Z.of_nat (S i))%Z)
  /\ ((forall r, In r (rankedSuppliers res) -> is_Some (score r)) ->
      forall i j ri rj a b,
        (i < j)%nat ->
        rankedSuppliers res !! i = Some ri -> rankedSuppliers res !! j = Some rj ->
        score ri = Some a -> score rj = Some b -> b <= a).
Proof.
  intros Hp. apply perform_sorted in Hp as [scored ->].
  set (sorted := JS.sort _ scored). split.
  - intros i r Hr. apply list_lookup_imap_Some in Hr as (s & _ & ->). done.
  - intros Hnum i j ri rj a b Hij Hi Hj Ha Hb.
    apply list_lookup_imap_Some in Hi as (si & Hi & ->).
    apply list_lookup_imap_Some in Hj as (sj & Hj & ->).
    simpl in Ha, Hb.
    assert (Hall : Forall (fun s => is_Some (score s)) scored).
    { apply List.Forall_forall. intros s Hs.
      apply (Permutation_in _ (Permutation_sym (Ranked.sort_perm
              (fun a b => scoreBelow (score a) (score b)) scored))) in Hs.
      fold sorted in Hs. apply list_elem_of_In, list_elem_of_lookup_1 in Hs as [k Hk].
      specialize (Hnum (withRanks ranks k s)). simpl in Hnum. apply Hnum.
      apply list_elem_of_In. apply (elem_of_lookup_imap_2 _ _ _ _ Hk). }
    exact (sorted_lookup _ _ (sort_descending score scored Hall)
             i j si sj Hij Hi Hj a b Ha Hb).
Qed.

End ranked.

Lemma ranking_descending_witness :
  exists ranks res,
    @perform plainHost euclidean twice = Done (ranks, res)
    /\ forall i r, rankedSuppliers res !! i = Some r ->
         originalRank r = Some (default 0%nat (ranks !! supplier r)).
Proof.
  eexists _, _. split; [reflexivity|].
  intros i r Hr.
  exact (proj1 (proj1 (@ranking_descending plainHost euclidean twice _ _ eq_refl)
                  i r Hr)).
Defined.

(** ** When a ranking is produced *)

Lemma indexOf_In (l : list string) (x : string) :
  is_Some (JS.indexOf l x) <-> In x l.
Proof.
  induction l as [|y l IH]; simpl.
  - split; [by intros [? ?] | done].
  - destruct (decide (y = x)) as [->|Hne].
    + split; [by left | by eexists].
    + rewrite fmap_is_Some, IH. split; [by right | by intros [?|?]].
Qed.

Lemma extractCriteria_Done (excel : ExcelData) (criteria : list string) :
  (forall c, In c criteria ->
     exists i, JS.indexOf (headers excel) c = Some i
               /\ numericColumn (data excel) i <> []) ->
  forall d, exists d', extractCriteria excel criteria d = Done d'.
Proof.
  induction criteria as [|c rest IH]; intros Hall d; simpl; [by eexists|].
  destruct (Hall c) as (i & -> & Hne); [by left|].
  destruct (numericColumn (data excel) i) eqn:E; [done|]. simpl.
  rewrite <- E. apply IH. intros c' Hc'. apply Hall. by right.
Qed.

Section produced.
Context `{Host}.

(** X23: a ranking is produced exactly when a sheet is loaded, a supplier
    column is chosen that is a header of the sheet, at least one criterion
    is selected, and every selected criterion is a header whose column
    has at least one numeric cell; the ranking then has one row for each
    row of the sheet. *)
Theorem perform_produces (m : AnalysisMethod) (st : State) :
  ((exists ranks res, perform m st = Done (ranks, res))
   <-> exists excel,
         excelData st = Some excel
         /\ evaluationColumn st <> EmptyString
         /\ selectedVariables st <> []
         /\ In (evaluationColumn st) (headers excel)
         /\ forall c, In c (selectedVariables st) ->
              exists i, JS.indexOf (headers excel) c = Some i
                        /\ numericColumn (data excel) i <> [])
  /\ forall ranks res excel,
       perform m st = Done (ranks, res) -> excelData st = Some excel ->
       length (rankedSuppliers res) = length (data excel).
Proof.
  split.
  - split.
    + intros (ranks & res & Hp). unfold perform in Hp.
      destruct (excelData st) as [excel|]; [|done]. exists excel.
      destruct (bool_decide (evaluationColumn st = EmptyString)) eqn:Ee; [done|].
      destruct (length (selectedVariables st) =? 0)%nat eqn:El; [done|].
      simpl in Hp.
      destruct (JS.indexOf (headers excel) (evaluationColumn st)) as [idx|] eqn:Ei;
        [|done].
      destruct (extractCriteria excel (selectedVariables st) ∅) as [|cd] eqn:Ec;
        [done|].
      split; [done|]. split; [by apply bool_decide_eq_false in Ee|].
      split; [intros E; by rewrite E in El|].
      split; [apply indexOf_In; by rewrite Ei|].
      intros c Hc.
      destruct (proj1 (Ranked.extractCriteria_spec _ _ _ _ Ec) c Hc)
        as (i & Hi & _ & Hne).
      by exists i.
    + intros (excel & Ee & Hev & Hsel & Hin & Hall). unfold perform. rewrite Ee.
      rewrite (bool_decide_eq_false_2 _ Hev).
      destruct (selectedVariables st) as [|c0 sel] eqn:Es; [done|]. simpl orb.
      cbv iota.
      apply indexOf_In in Hin as [idx ->].
      destruct (extractCriteria_Done excel (c0 :: sel) Hall ∅) as [cd ->].
      by eexists _, _.
  - intros ranks res excel Hp Ee.
    destruct (Ranked.perform_scores m st ranks res Hp)
      as (excel' & idx & cd & Ee' & _ & _ & Hs & _ & Hperm & _).
    rewrite Ee in Ee'. injection Ee' as <-.
    apply Permutation_length in Hperm.
    rewrite length_map, Hs, length_map in Hperm. done.
Qed.

End produced.

End Scoring.

(** ** Weights of the sensitivity analysis *)

Module Sliders.
Import Sensitivity SensitivityWeights Sums.

Lemma selectedWeight_cons (x : CategoryWeight) (l : list CategoryWeight) :
  totalWeight (x :: l) = (if selected x then weight x else 0) + totalWeight l.
Proof.
  unfold totalWeight, selectedCategories. cbn [List.filter].
  destruct (selected x); [|lra]. cbn [fold_left].
  rewrite (sum_shift weight _ (0 + weight x)). lra.
Qed.




(** The sum of the selected weights after every selected weight is set
    by [f]. *)
Lemma selectedWeight_set (f : CategoryWeight -> R) (l : list CategoryWeight) :
  totalWeight
    (map (fun cat =>
            if selected cat
            then {| category := category cat; weight := f cat;
                    selected := selected cat |}
            else cat) l)
  = fold_left (fun sum cat => sum + f cat) (selectedCategories l) 0
  /\ length (selectedCategories
               (map (fun cat =>
                       if selected cat
                       then {| category := category cat; weight := f cat;
                               selected := selected cat |}
                       else cat) l))
     = length (selectedCategories l).
Proof.
  induction l as [|x l [IH1 IH2]]; [done|].
  cbn [map]. rewrite selectedWeight_cons. unfold selectedCategories in *.
  cbn [List.filter].
  destruct (selected x) eqn:Ex; cbn [selected weight]; rewrite ?Ex.
  - cbn [fold_left length]. rewrite (sum_shift f _ (0 + f x)), IH1, IH2.
    split; [lra | done].
  - rewrite IH1, IH2. split; [lra | done].
Qed.

(** X25: [normalizeWeights] has no numbers to give exactly when some
    category is selected and the selected weights sum to 0.  Otherwise,
    with a category selected, the selected weights sum to 1 within 0.001
    afterwards, names and selection are as before, and a second call
    changes nothing. *)
Theorem normalizeWeights_total (l : list CategoryWeight) :
  (normalizeWeights l = None
   <-> selectedCategories l <> [] /\ totalWeight l = 0)
  /\ forall l',
       normalizeWeights l = Some l' -> selectedCategories l <> [] ->
       Rabs (totalWeight l' - 1) < 0.001
       /\ map category l' = map category l
       /\ map selected l' = map selected l
       /\ normalizeWeights l' = Some l'.
Proof.
  unfold normalizeWeights. cbv zeta.
  change (List.filter selected l) with (selectedCategories l).
  change (fold_left (fun acc cat => acc + weight cat) (selectedCategories l) 0)
    with (totalWeight l).
  destruct (length (selectedCategories l) =? 0)%nat eqn:El.
  { apply Nat.eqb_eq in El.
    split; [split; [done | intros [Hne _]; by destruct (selectedCategories l)]|].
    intros l' _ Hne. by destruct (selectedCategories l). }
  apply Nat.eqb_neq in El.
  assert (Hsel : selectedCategories l <> []) by (intros E; by rewrite E in El).
  destruct (JS.ltb (Rabs (totalWeight l - 1)) 0.001) eqn:En.
  { pose proof En as Hn. apply JSFacts.ltb_spec in Hn. split.
    - split; [done|]. intros [_ E0]. rewrite E0 in Hn.
      revert Hn. unfold Rabs. destruct Rcase_abs; lra.
    - intros l' [= <-] _. repeat split; try done.
      change (List.filter selected l) with (selectedCategories l).
      change (fold_left (fun acc cat => acc + weight cat) (selectedCategories l) 0)
        with (totalWeight l).
      rewrite (proj2 (Nat.eqb_neq _ _) El), En. done. }
  destruct (JS.eqb (totalWeight l) 0) eqn:E0.
  { apply JSFacts.eqb_spec in E0. split; [done|]. by intros l'. }
  apply JSFacts.eqb_false in E0.
  split; [split; [done | by intros [_ ?]]|].
  intros l' [= <-] _.
  destruct (selectedWeight_set (fun cat => weight cat / totalWeight l) l) as [Et Hl].
  assert (E1 : totalWeight
                 (map (fun cat =>
                         if selected cat
                         then {| category := category cat;
                                 weight := weight cat / totalWeight l;
                                 selected := selected cat |}
                         else cat) l) = 1).
  { rewrite Et.
    rewrite (sum_ext _ (fun cat => / totalWeight l * weight cat))
      by (intros; unfold Rdiv; lra).
    rewrite sum_scale. fold (totalWeight l). by field. }
  assert (Hone : Rabs (1 - 1) < 0.001).
  { replace (1 - 1) with 0 by lra. rewrite Rabs_R0. lra. }
  split; [by rewrite E1|]. split; [|split].
  - rewrite map_map. apply map_ext. intros c. by destruct (selected c).
  - rewrite map_map. apply map_ext. intros c. by destruct (selected c) eqn:E.
  - change (List.filter selected ?x) with (selectedCategories x).
    change (fold_left (fun acc cat => acc + weight cat) (selectedCategories ?x) 0)
      with (totalWeight x).
    rewrite Hl, (proj2 (Nat.eqb_neq _ _) El), E1.
    by rewrite (proj2 (JSFacts.ltb_spec _ _) Hone).
Qed.



(** The entries of a map filled by keys, each value given by its key. *)
Lemma fill_lookup (f : string -> R) (l : list CategoryWeight) :
  forall (m : gmap string R) (k : string),
    fold_left (fun yMap cat => <[category cat := f (category cat)]> yMap) l m !! k
    = if decide (k ∈ map category l) then Some (f k) else m !! k.
Proof.
  induction l as [|x l IH]; intros m k; cbn [fold_left map].
  - destruct (decide _) as [Hin|]; [by apply elem_of_nil in Hin | done].
  - rewrite IH.
    destruct (decide (k ∈ map category l)) as [Hin | Hin].
    + rewrite decide_True; [done | by right].
    + destruct (decide (k = category x)) as [-> | Hne].
      * rewrite lookup_insert_eq, decide_True; [done | by left].
      * rewrite lookup_insert_ne by done.
        rewrite decide_False; [done|]. by intros [?|?]%elem_of_cons.
Qed.

(** X27: after an accepted run, the change recorded for a category is the
    absolute difference between its new and its saved weight, so it is
    not negative; a change is recorded for the selected categories and
    for no other name, and the error is cleared. *)
Theorem runSensitivityAnalysis_changes (st : State) :
  targetCategory st <> EmptyString ->
  (2 <= length (selectedCategories (categories st)))%nat ->
  exists w y,
    newWeights (runSensitivityAnalysis st) = Some w
    /\ absoluteChanges (runSensitivityAnalysis st) = Some y
    /\ error (runSensitivityAnalysis st) = None
    /\ (forall k,
          In k (map category (selectedCategories (categories st))) ->
          y !! k
          = Some (Rabs (weightOr0 w k
                        - weightOr0 (originalWeights (runSensitivityAnalysis st)) k)))
    /\ (forall k,
          ~ In k (map category (selectedCategories (categories st))) ->
          y !! k = None)
    /\ (forall k v, y !! k = Some v -> 0 <= v).
Proof.
  intros Ht Hl. unfold runSensitivityAnalysis.
  rewrite (bool_decide_eq_false_2 _ Ht).
  rewrite (proj2 (Nat.ltb_ge _ _) Hl).
  cbn [newWeights absoluteChanges error originalWeights].
  eexists _, _. split; [done|]. split; [done|]. split; [done|].
  unfold absoluteChange.
  set (sel := selectedCategories (categories st)).
  set (w := reallocate _ _ _ _).
  pose proof (fill_lookup
                (fun k => Rabs (weightOr0 w k - weightOr0 (saveWeights sel) k))
                sel ∅) as Hf.
  cbv beta in Hf.
  split; [|split].
  - intros k Hk. rewrite Hf, decide_True; [done | by apply list_elem_of_In].
  - intros k Hk. rewrite Hf, decide_False; [done | by rewrite list_elem_of_In].
  - intros k v. rewrite Hf. destruct (decide _); [|done].
    intros [= <-]. apply Rabs_pos.
Qed.

Lemma runSensitivityAnalysis_changes_witness :
  exists w y,
    newWeights (runSensitivityAnalysis Stating.low) = Some w
    /\ absoluteChanges (runSensitivityAnalysis Stating.low) = Some y
    /\ error (runSensitivityAnalysis Stating.low) = None.
Proof.
  destruct (runSensitivityAnalysis_changes Stating.low) as (w & y & H1 & H2 & H3 & _).
  - done.
  - simpl. lia.
  - by exists w, y.
Defined.

End Sliders.

(** ** Edits of the sheet *)

Module Edits.
Import Sheet FileContext.

(** A hole and an empty text read alike. *)
Lemma parseCell_empty (dflt : string) :
  parseCell dflt (CStr EmptyString) = parseCell dflt CEmpty.
Proof. reflexivity. Qed.

Lemma numericColumn_ext (rows rows' : list (list cell)) (i : nat) :
  Forall2 (fun row row' =>
             parseCell "0" (at_col row i) = parseCell "0" (at_col row' i))
          rows rows' ->
  numericColumn rows i = numericColumn rows' i.
Proof.
  unfold numericColumn. induction 1 as [|row row' rows rows' E _ IH]; [done|].
  cbn [omap list_omap].
  fold (@omap list _ _ _ (fun row => parseCell "0" (at_col row i))).
  by rewrite E, IH.
Qed.

Lemma at_col_app (row : list cell) (i : nat) :
  parseCell "0" (at_col (row ++ [CStr EmptyString]) i) = parseCell "0" (at_col row i).
Proof.
  unfold at_col.
  destruct (decide (i < length row)%nat) as [Hlt | Hge].
  - by rewrite lookup_app_l.
  - rewrite lookup_app_r, (lookup_ge_None_2 row) by lia.
    destruct (i - length row)%nat; done.
Qed.

Lemma numericColumn_addColumn (header : string) (excelData : ExcelData) (i : nat) :
  numericColumn (data (addColumn header excelData)) i
  = numericColumn (data excelData) i.
Proof.
  apply numericColumn_ext. simpl.
  induction (data excelData) as [|row rows IH]; constructor; [|done].
  apply at_col_app.
Qed.

Lemma indexOf_app (l : list string) (x y : string) :
  In x l -> JS.indexOf (l ++ [y]) x = JS.indexOf l x.
Proof.
  induction l as [|z l IH]; [done|]. simpl.
  destruct (decide (z = x)); [done|]. intros [? | Hin]; [done|]. by rewrite IH.
Qed.

Lemma extractVariables_addColumn (header : string) (excelData : ExcelData)
    (variables : list string) :
  (forall v, In v variables -> In v (headers excelData)) ->
  forall d s,
    Correlation.extractVariables (addColumn header excelData) variables d s
    = Correlation.extractVariables excelData variables d s.
Proof.
  induction variables as [|v rest IH]; intros Hin d s; [done|].
  cbn [Correlation.extractVariables].
  change (headers (addColumn header excelData)) with (headers excelData ++ [header]).
  rewrite indexOf_app by (apply Hin; by left).
  destruct (JS.indexOf (headers excelData) v) as [i|]; [|done].
  rewrite numericColumn_addColumn.
  destruct (_ =? _)%nat; [done|]. apply IH. intros; apply Hin; by right.
Qed.

(** X28: a column added to the sheet changes no series: every column index
    reads the same numbers as before, a correlation run on variables of
    the sheet gives the same outcome as before, and, when no row is longer
    than the header row, the new column reads as one 0 for each row. *)
Theorem addColumn_keeps_series (header : string) (excelData : ExcelData)
    (selectedVariables : list string) :
  (forall v, In v selectedVariables -> In v (headers excelData)) ->
  (forall i, numericColumn (data (addColumn header excelData)) i
             = numericColumn (data excelData) i)
  /\ Correlation.handleRun (Some (addColumn header excelData)) selectedVariables
     = Correlation.handleRun (Some excelData) selectedVariables
  /\ (Forall (fun row => (length row <= length (headers excelData))%nat)
             (data excelData) ->
      numericColumn (data (addColumn header excelData)) (length (headers excelData))
      = map (fun _ => 0) (data excelData)).
Proof.
  intros Hin. split; [apply numericColumn_addColumn|]. split.
  - unfold Correlation.handleRun, Correlation.extractVariableData.
    by rewrite extractVariables_addColumn.
  - intros Hrows. rewrite numericColumn_addColumn. unfold numericColumn.
    induction Hrows as [|row rows Hrow _ IH]; [done|].
    cbn [omap list_omap map].
    fold (@omap list _ _ _
            (fun row => parseCell "0" (at_col row (length (headers excelData))))).
    unfold at_col at 1. rewrite lookup_ge_None_2 by done.
    change (parseCell "0" (default CEmpty None)) with (parseFloat "0").
    rewrite Extraction.parseFloat_0. by rewrite IH.
Qed.

Lemma addColumn_keeps_series_witness :
  Correlation.handleRun (Some (addColumn "c" Stating.two)) ["a"%string; "b"%string]
  = Correlation.handleRun (Some Stating.two) ["a"%string; "b"%string].
Proof.
  apply (addColumn_keeps_series "c" Stating.two ["a"%string; "b"%string]).
  intros v [<- | [<- | []]]; simpl; tauto.
Defined.

Lemma numericColumn_app (rows rows' : list (list cell)) (i : nat) :
  numericColumn (rows ++ rows') i = numericColumn rows i ++ numericColumn rows' i.
Proof. apply omap_app. Qed.

Lemma numericColumn_blank (n i : nat) :
  numericColumn [replicate n (CStr EmptyString)] i = [0].
Proof.
  unfold numericColumn. cbn [omap list_omap].
  assert (E : parseCell "0" (at_col (replicate n (CStr EmptyString)) i)
              = parseFloat "0").
  { unfold at_col. destruct (replicate n (CStr EmptyString) !! i) as [c|] eqn:Ec.
    - apply lookup_replicate in Ec as [-> _]. done.
    - done. }
  rewrite E, Extraction.parseFloat_0. done.
Qed.

(** The rows that [filter] keeps when one index is left out. *)
Lemma filter_index_kept (t n : nat) (l : list (list cell)) :
  (t < n)%nat ->
  map snd (List.filter (fun '(index, _) => negb (index =? t)%nat)
                       (imap (fun i row => ((n + i)%nat, row)) l)) = l.
Proof.
  revert n. induction l as [|row l IH]; intros n Hn; [done|].
  cbn [imap List.filter].
  rewrite (proj2 (Nat.eqb_neq (n + 0) t)) by lia. cbn [negb map snd]. f_equal.
  rewrite <- (IH (S n)) at 2 by lia. do 2 f_equal.
  apply imap_ext. intros i x _. simpl. f_equal. lia.
Qed.

Lemma filter_index_delete (k n : nat) (l : list (list cell)) :
  map snd (List.filter (fun '(index, _) => negb (index =? n + k)%nat)
                       (imap (fun i row => ((n + i)%nat, row)) l))
  = delete k l.
Proof.
  revert k n. induction l as [|row l IH]; intros k n; [done|].
  cbn [imap List.filter].
  assert (Ei : imap ((fun i row0 => ((n + i)%nat, row0)) ∘ S) l
               = imap (fun i row0 => ((S n + i)%nat, row0)) l).
  { apply imap_ext. intros i x _. simpl. f_equal. lia. }
  rewrite Ei. destruct k as [|k].
  - rewrite Nat.eqb_refl. cbn [negb delete list_delete].
    apply filter_index_kept. lia.
  - rewrite (proj2 (Nat.eqb_neq (n + 0) (n + S k))) by lia.
    cbn [negb map snd delete list_delete]. f_equal.
    replace (n + S k)%nat with (S n + k)%nat by lia. apply IH.
Qed.

Lemma removeRow_delete (rowIndex : nat) (excelData : ExcelData) :
  data (removeRow rowIndex excelData) = delete rowIndex (data excelData).
Proof.
  unfold removeRow. cbn [data].
  rewrite <- (filter_index_delete rowIndex 0). done.
Qed.

(** X29: an added row counts as an observation 0 in every column, and
    removing the row at the position where it was added gives the sheet
    back. *)
Theorem addRow_appends_zero (excelData : ExcelData) :
  (forall i, numericColumn (data (addRow excelData)) i
             = numericColumn (data excelData) i ++ [0])
  /\ removeRow (length (data excelData)) (addRow excelData) = excelData
  /\ headers (addRow excelData) = headers excelData.
Proof.
  split; [|split; [|done]].
  - intros i. unfold addRow. cbn [data].
    by rewrite numericColumn_app, numericColumn_blank.
  - destruct excelData as [h d sn a].
    pose proof (removeRow_delete (length d) (addRow (Build_ExcelData h d sn a))) as E.
    unfold removeRow in *. cbn [data headers sheetNames activeSheet addRow] in *.
    rewrite E. f_equal.
    rewrite delete_take_drop, take_app_length, drop_ge, app_nil_r;
      [done | rewrite length_app; simpl; lia].
Qed.

Lemma setCell_at_col (row : list cell) (colIndex : nat) (value : cell) (j : nat) :
  at_col (setCell row colIndex value) j
  = if decide (j = colIndex) then value else at_col row j.
Proof.
  unfold setCell, at_col.
  destruct (colIndex <? length row)%nat eqn:E.
  - apply Nat.ltb_lt in E. destruct (decide (j = colIndex)) as [->|Hne].
    + by rewrite list_lookup_insert_eq.
    + by rewrite list_lookup_insert_ne.
  - apply Nat.ltb_ge in E.
    destruct (decide (j < length row)%nat) as [Hlt | Hge].
    + rewrite lookup_app_l by done. rewrite decide_False by lia. done.
    + rewrite lookup_app_r by lia. rewrite (lookup_ge_None_2 row) by lia.
      destruct (decide (j = colIndex)) as [->|Hne].
      * rewrite lookup_app_r by (rewrite length_replicate; lia).
        rewrite length_replicate, Nat.sub_diag. done.
      * destruct (decide (j < colIndex)%nat) as [Hlt | Hgt].
        -- rewrite lookup_app_l by (rewrite length_replicate; lia).
           rewrite lookup_replicate_2 by lia. done.
        -- rewrite lookup_app_r by (rewrite length_replicate; lia).
           rewrite length_replicate.
           destruct (j - length row - (colIndex - length row))%nat eqn:En; [lia|done].
Qed.

(** X30: writing a cell fails exactly when the sheet has no such row.
    Otherwise the headers and the other rows stay, the cell reads back
    as the value written, the other cells of its row read as before, and
    so does the series of every other column. *)
Theorem updateCell_other_columns (rowIndex colIndex : nat) (value : cell)
    (excelData : ExcelData) :
  (updateCell rowIndex colIndex value excelData = None
   <-> (length (data excelData) <= rowIndex)%nat)
  /\ forall excelData',
       updateCell rowIndex colIndex value excelData = Some excelData' ->
       headers excelData' = headers excelData
       /\ length (data excelData') = length (data excelData)
       /\ (forall r, r <> rowIndex -> data excelData' !! r = data excelData !! r)
       /\ (forall j,
             at_col (default [] (data excelData' !! rowIndex)) j
             = if decide (j = colIndex) then value
               else at_col (default [] (data excelData !! rowIndex)) j)
       /\ (forall j, j <> colIndex ->
             numericColumn (data excelData') j = numericColumn (data excelData) j).
Proof.
  unfold updateCell.
  destruct (data excelData !! rowIndex) as [row|] eqn:Er.
  - split.
    { split; [done|]. intros Hge. apply lookup_ge_None_2 in Hge. congruence. }
    intros e' [= <-]. cbn [headers data].
    assert (Hlt : (rowIndex < length (data excelData))%nat)
      by (eapply lookup_lt_Some; exact Er).
    split; [done|]. split; [apply length_insert|].
    split; [intros r Hr; by apply list_lookup_insert_ne|].
    split.
    + intros j. rewrite list_lookup_insert_eq by done. simpl.
      apply setCell_at_col.
    + intros j Hj. apply numericColumn_ext.
      revert rowIndex Er Hlt.
      induction (data excelData) as [|x rows IH]; intros [|r] Er Hlt; simpl in *;
        try lia.
      * injection Er as ->. constructor.
        -- rewrite setCell_at_col, decide_False by done. done.
        -- clear. induction rows; by constructor.
      * constructor; [done|]. apply IH; [done | lia].
  - split; [split; [intros _; by apply lookup_ge_None_1 | done] | by intros e'].
Qed.

End Edits.
